(** * SOSA funding lifecycle: InvestorView, PostIdea

    A shallow embedding of the two React components that carry the funding
    logic of the SOSA front end:

    - [InvestorView.tsx]: [fetchIdeas], [handleInvest], [handleAmountChange]
      and the part of the rendered view that decides whether an Invest button
      exists for an idea;
    - [PostIdea.tsx]: [handleSubmit].

    JavaScript numbers are IEEE 754 binary64 values, modelled by Rocq's
    primitive floats; the hosted database (Supabase), the Algorand client and
    the wallet are external services, modelled by an environment record that
    fixes their answers, and by a world state that holds the two tables and the
    log of every call made to them. *)

From Stdlib Require Import ZArith Floats Uint63 Ascii String List Sorted Permutation Lia.
From stdpp Require Import base option list gmap strings pretty.

Local Open Scope Z_scope.

(** ** The JavaScript runtime used by the components *)

Module JS.

(** *** Numbers *)

Definition million : float := Eval vm_compute in of_uint63 1000000.
Definition hundred : float := Eval vm_compute in of_uint63 100.

(** The Number with mathematical value [z], for [0 <= z <= 2^53]. *)
Definition of_small_Z (z : Z) : float := of_uint63 (Uint63.of_Z z).

(** [Math.floor]: NaN, the zeros and the infinities are returned as they
    are; a finite [m * 2^e] with [e >= 0] is already an integer; otherwise
    the mantissa is shifted right, which on [Z] rounds toward minus
    infinity.  The result of the shift is below [2^53] in absolute value. *)
Definition Math_floor (x : float) : float :=
  match Prim2SF x with
  | S754_finite s m e =>
      if 0 <=? e then x
      else
        let q := Z.shiftr (if s then Z.neg m else Z.pos m) (- e) in
        if q <? 0 then PrimFloat.opp (of_small_Z (- q)) else of_small_Z q
  | _ => x
  end.

(** The Number nearest to [n / d] (ties to even), for [0 < n] and [0 < d]:
    the binary exponent [e] is chosen so that the quotient has 53 bits, or
    is the smallest exponent of the format; the quotient is rounded on [Z]
    and scaled back, which overflows to infinity above the largest
    double. *)
Definition nearest_ratio (n d : Z) : float :=
  let e0 := Z.max (Z.log2 n - Z.log2 d - 52) (-1074) in
  let scaled (e : Z) := (n * 2 ^ Z.max 0 (- e), d * 2 ^ Z.max 0 e) in
  let e :=
    let '(a, b) := scaled e0 in
    if a / b <? 2 ^ 52 then Z.max (e0 - 1) (-1074)
    else if 2 ^ 53 <=? a / b then e0 + 1 else e0 in
  let '(a, b) := scaled e in
  let q := a / b in
  let r := a mod b in
  let q' := if (b <? 2 * r) || ((b =? 2 * r) && Z.odd q) then q + 1 else q in
  Z.ldexp (of_small_Z q') e.

(** The Number nearest to [m * 10^e], for [0 <= m].  Decimal exponents far
    outside the range of the format are settled without computing the
    power. *)
Definition of_decimal (m e : Z) : float :=
  if m =? 0 then PrimFloat.zero
  else
    let lead := e + Z.log2 m / 3 in
    if 400 <? e then infinity
    else if lead <? -400 then PrimFloat.zero
    else if 0 <=? e then nearest_ratio (m * 10 ^ e) 1
    else nearest_ratio m (10 ^ (- e)).

(** *** Strings *)

Definition chars (s : string) : list ascii := list_ascii_of_string s.

(** White space and line terminators in the ASCII range. *)
Definition is_space (c : ascii) : bool :=
  let n := N_of_ascii c in
  ((n =? 9) || (n =? 10) || (n =? 11) || (n =? 12) || (n =? 13) || (n =? 32))%N.

Fixpoint trim_start (l : list ascii) : list ascii :=
  match l with
  | c :: r => if is_space c then trim_start r else l
  | [] => []
  end.

Definition digit_value (c : ascii) : option Z :=
  let n := Z.of_N (N_of_ascii c) in
  if (48 <=? n) && (n <=? 57) then Some (n - 48)
  else if (97 <=? n) && (n <=? 122) then Some (n - 87)
  else if (65 <=? n) && (n <=? 90) then Some (n - 55)
  else None.

(** The longest prefix of digits of radix [radix], as their values, and the
    rest of the input. *)
Fixpoint take_digits (radix : Z) (l : list ascii) : list Z * list ascii :=
  match l with
  | c :: r =>
      match digit_value c with
      | Some v =>
          if v <? radix then
            let '(ds, rest) := take_digits radix r in (v :: ds, rest)
          else ([], l)
      | None => ([], l)
      end
  | [] => ([], [])
  end.

Definition digits_value (radix : Z) (ds : list Z) : Z :=
  fold_left (fun acc v => acc * radix + v) ds 0.

(** An optional sign: [true] for minus. *)
Definition take_sign (l : list ascii) : bool * list ascii :=
  match l with
  | "-"%char :: r => (true, r)
  | "+"%char :: r => (false, r)
  | _ => (false, l)
  end.

Fixpoint starts_with (p l : list ascii) : bool :=
  match p, l with
  | [], _ => true
  | a :: p', b :: l' => if Ascii.eqb a b then starts_with p' l' else false
  | _ :: _, [] => false
  end.

(** The exponent part [e], [E] followed by an optional sign and at least one
    digit; anything else is no exponent part. *)
Definition take_exponent (l : list ascii) : Z :=
  match l with
  | c :: r =>
      if Ascii.eqb c "e" || Ascii.eqb c "E" then
        let '(neg, r') := take_sign r in
        match take_digits 10 r' with
        | ([], _) => 0
        | (ds, _) => if neg then - digits_value 10 ds else digits_value 10 ds
        end
      else 0
  | [] => 0
  end.

(** [parseFloat]: leading white space is dropped, then the longest prefix
    that is a decimal literal is converted; NaN when there is none. *)
Definition parseFloat (s : string) : float :=
  let '(neg, l) := take_sign (trim_start (chars s)) in
  let signed (f : float) := if neg then PrimFloat.opp f else f in
  if starts_with (chars "Infinity") l then signed infinity
  else
    let '(ip, l1) := take_digits 10 l in
    let '(fp, l2) :=
      match l1 with
      | "."%char :: r => take_digits 10 r
      | _ => ([], l1)
      end in
    match ip, fp with
    | [], [] => nan
    | _, _ =>
        signed (of_decimal (digits_value 10 (ip ++ fp))
                           (take_exponent l2 - Z.of_nat (length fp)))
    end.

(** [parseInt] without a radix: leading white space, a sign, then radix 16
    after [0x] or [0X] and radix 10 otherwise; [None] stands for NaN.  The
    result is kept as the integer the digits denote. *)
Definition parseInt (s : string) : option Z :=
  let '(neg, l) := take_sign (trim_start (chars s)) in
  let '(radix, l') :=
    match l with
    | "0"%char :: x :: r =>
        if Ascii.eqb x "x" || Ascii.eqb x "X" then (16, r) else (10, l)
    | _ => (10, l)
    end in
  match take_digits radix l' with
  | ([], _) => None
  | (ds, _) => Some (if neg then - digits_value radix ds else digits_value radix ds)
  end.

End JS.

Module JSDate.

(** *** Dates

    A [Date] holds a time value: milliseconds since the epoch, or NaN for an
    invalid date ([None] here).  Time values of valid dates are integers of
    absolute value at most 8.64e15, which doubles hold exactly, so they are
    kept on [Z].  A timestamp written with [toISOString] and read back with
    [new Date(string)] is the same time value; the tables keep the time
    value. *)

Definition msPerDay : Z := 86400000.
Definition Day (t : Z) : Z := t / msPerDay.
Definition TimeWithinDay (t : Z) : Z := t mod msPerDay.
Definition MakeDate (day time : Z) : Z := day * msPerDay + time.

Definition TimeClip (t : Z) : option Z :=
  if Z.abs t <=? 8640000000000000 then Some t else None.

(** The host's offset of local time from UTC, in milliseconds: at a UTC
    time ([true]) or at a local time ([false]). *)
Definition TimeZone : Type := Z -> bool -> Z.

Definition LocalTime (tza : TimeZone) (t : Z) : Z := t + tza t true.
Definition UTC (tza : TimeZone) (t : Z) : Z := t - tza t false.

(** [d.setDate(d.getDate() + n)].  [getDate] is the day of the month of the
    local time [lt] of [d], and [setDate(v)] moves to
    [MakeDay(YearFromTime(lt), MonthFromTime(lt), v)], the day number of the
    first of that month plus [v - 1]; for [v = getDate() + n] that is
    [Day(lt) + n].  The time within the day is kept and the result is taken
    back to UTC and clipped.  A NaN [n] gives an invalid date. *)
Definition setDate_getDate_plus (tza : TimeZone) (d : option Z) (n : option Z)
  : option Z :=
  match d, n with
  | Some t, Some n =>
      let lt := LocalTime tza t in
      TimeClip (UTC tza (MakeDate (Day lt + n) (TimeWithinDay lt)))
  | _, _ => None
  end.

End JSDate.

(** ** Data model *)

Inductive Status := open | funded | expired.

#[global] Instance Status_eq_dec : EqDecision Status.
Proof. solve_decision. Defined.

(** A thrown or returned error value: whether it is an [Error] object, and
    its [message]. *)
Record JsError := { is_Error : bool; message : string }.

Inductive Res (A : Type) : Type :=
| Ok (a : A)
| Throw (e : JsError).
Arguments Ok {A} a.
Arguments Throw {A} e.

Module StartupIdea.
(** A row of [startup_ideas], the [StartupIdea] interface. *)
Record t := {
  id : string;
  wallet_address : string;
  title : string;
  description : string;
  image_url : option string;
  money_needed : float;
  share_offered : string;
  end_date : Z;
  status : Status;
  created_at : Z
}.

(** [{ ...idea, status: s }] *)
Definition with_status (s : Status) (i : t) : t :=
  {| id := id i; wallet_address := wallet_address i; title := title i;
     description := description i; image_url := image_url i;
     money_needed := money_needed i; share_offered := share_offered i;
     end_date := end_date i; status := s; created_at := created_at i |}.
End StartupIdea.

Module Investment.
(** A row of [investments]. *)
Record t := {
  idea_id : string;
  investor_address : string;
  amount : float;
  share_percentage : float;
  transaction_id : string;
  invested_at : Z
}.
End Investment.

Module Payment.
Record SuggestedParams := { fee : Z; firstValid : Z; lastValid : Z }.

(** The object given to [makePaymentTxnWithSuggestedParamsFromObject]; the
    transaction built from it is identified with it. *)
Record t := {
  sender : option string;
  receiver : string;
  amount : float;
  note : string;
  suggestedParams : SuggestedParams
}.
End Payment.

(** The fields of the PostIdea form, and the row it inserts (the store assigns
    the id). *)
Record FormData := {
  fd_title : string;
  fd_description : string;
  fd_imageUrl : string;
  fd_moneyNeeded : string;
  fd_shareOffered : string;
  fd_duration : string
}.

Definition emptyForm : FormData :=
  {| fd_title := ""; fd_description := ""; fd_imageUrl := "";
     fd_moneyNeeded := ""; fd_shareOffered := ""; fd_duration := "" |}.

(** ** The external services *)

(** The Algorand client and the wallet: what each call answers. *)
Record Algorand := {
  getTransactionParams : Res Payment.SuggestedParams;
  makePaymentTxn : Payment.t -> option JsError;
  transactionSigner : Payment.t -> option JsError;
  sendRawTransaction : Payment.t -> Res string;
  waitForConfirmation : string -> Z -> option JsError
}.

(** The Supabase client: the [error] each call answers with, and the id the
    store assigns to a new idea. *)
Record Supabase := {
  select_ideas_error : option JsError;
  update_status_error : string -> Status -> option JsError;
  insert_investment_error : Investment.t -> option JsError;
  select_amounts_error : string -> option JsError;
  insert_idea_error : StartupIdea.t -> option JsError;
  assign_id : list StartupIdea.t -> string
}.

Record Env := {
  algorand : Algorand;
  supabase : Supabase;
  LocalTZA : JSDate.TimeZone;
  walletAddress : string;          (* the [walletAddress] prop *)
  activeAddress : option string    (* [useWallet().activeAddress] *)
}.

(** Every call that leaves the component, in the order made. *)
Inductive Call :=
| GetTransactionParams
| MakePaymentTxn (p : Payment.t)
| EncodeUnsignedTransaction (p : Payment.t)
| TransactionSigner (p : Payment.t)
| SendRawTransaction (p : Payment.t)
| WaitForConfirmation (txid : string) (rounds : Z)
| SelectIdeas
| UpdateStatus (id : string) (s : Status)
| InsertInvestment (r : Investment.t)
| SelectAmounts (idea_id : string)
| InsertIdea (r : StartupIdea.t).

Definition is_ledger_call (c : Call) : bool :=
  match c with
  | GetTransactionParams | MakePaymentTxn _ | EncodeUnsignedTransaction _
  | TransactionSigner _ | SendRawTransaction _ | WaitForConfirmation _ _ => true
  | _ => false
  end.

(** The shared world: the two tables, the call log, and the clock.  The clock
    shows [time]; before each of the next readings the listed number of
    milliseconds elapses. *)
Record World := {
  startup_ideas : list StartupIdea.t;
  investments : list Investment.t;
  calls : list Call;
  time : Z;
  ticks : list N
}.

(** Snackbar messages, by template. *)
Inductive Message :=
| PleaseEnterAValidAmount
| AmountExceedsMoneyNeeded
| TransactionSent
| SuccessfullyInvested (amount : float) (sharePercentage_toFixed_2 : float)
| ErrorMessage (text : string)
| FailedToFetchIdeas.

Inductive Variant := warning | info | success | error.

(** State of one mounted [InvestorView]: its four [useState] cells, the
    snackbars it has enqueued, and the number of [fetchIdeas] calls it has
    started without awaiting them. *)
Record InvestorView := {
  ideas : list StartupIdea.t;
  loading : bool;
  investAmount : gmap string string;
  investingId : option string;
  snackbars : list (Message * Variant);
  started_fetchIdeas : nat
}.

(** State of one [PostIdea] modal. *)
Record PostIdea := {
  formData : FormData;
  post_loading : bool;
  post_error : option string;
  openModal : bool;
  alerts : list string
}.

Record St := {
  world : World;
  view : InvestorView;
  post : PostIdea
}.

(** ** A state and exception monad for the handlers *)

Definition M (A : Type) : Type := St -> Res A * St.

#[global] Instance M_ret : MRet M := fun A a s => (Ok a, s).

#[global] Instance M_bind : MBind M := fun A B k m s =>
  match m s with
  | (Ok a, s') => k a s'
  | (Throw e, s') => (Throw e, s')
  end.

Definition throw {A} (e : JsError) : M A := fun s => (Throw e, s).

(** [try { body } catch (e) { handler e } finally { fin }] *)
Definition try_catch_finally {A} (body : M A) (handler : JsError -> M A)
    (fin : M unit) : M A := fun s =>
  let '(r, s1) :=
    match body s with
    | (Ok a, s') => (Ok a, s')
    | (Throw e, s') => handler e s'
    end in
  match fin s1 with
  | (Ok _, s2) => (r, s2)
  | (Throw e, s2) => (Throw e, s2)
  end.

(** The state a handler leaves. *)
Definition exec {A} (m : M A) (s : St) : St := snd (m s).

Definition get_state : M St := fun s => (Ok s, s).

Definition set_world (w : World) (s : St) : St :=
  {| world := w; view := view s; post := post s |}.
Definition set_view (v : InvestorView) (s : St) : St :=
  {| world := world s; view := v; post := post s |}.
Definition set_post (p : PostIdea) (s : St) : St :=
  {| world := world s; view := view s; post := p |}.

Definition modify_world (f : World -> World) : M unit :=
  fun s => (Ok tt, set_world (f (world s)) s).
Definition modify_view (f : InvestorView -> InvestorView) : M unit :=
  fun s => (Ok tt, set_view (f (view s)) s).
Definition modify_post (f : PostIdea -> PostIdea) : M unit :=
  fun s => (Ok tt, set_post (f (post s)) s).

(** *** The world: log, clock, tables *)

Definition with_calls (cs : list Call) (w : World) : World :=
  {| startup_ideas := startup_ideas w; investments := investments w;
     calls := cs; time := time w; ticks := ticks w |}.
Definition with_startup_ideas (l : list StartupIdea.t) (w : World) : World :=
  {| startup_ideas := l; investments := investments w;
     calls := calls w; time := time w; ticks := ticks w |}.
Definition with_investments (l : list Investment.t) (w : World) : World :=
  {| startup_ideas := startup_ideas w; investments := l;
     calls := calls w; time := time w; ticks := ticks w |}.

Definition call (c : Call) : M unit :=
  modify_world (fun w => with_calls (calls w ++ [c]) w).

(** Reading the clock advances it by the next tick, if any. *)
Definition tick (w : World) : World :=
  match ticks w with
  | [] => w
  | dt :: r =>
      {| startup_ideas := startup_ideas w; investments := investments w;
         calls := calls w; time := time w + Z.of_N dt; ticks := r |}
  end.

(** [new Date()], as a time value *)
Definition new_Date : M Z :=
  fun s => let w := tick (world s) in (Ok (time w), set_world w s).

(** [toISOString()] throws a [RangeError] on an invalid date. *)
Definition toISOString (d : option Z) : M Z :=
  match d with
  | Some t => mret t
  | None => throw {| is_Error := true; message := "Invalid time value" |}
  end.

(** *** View and form state *)

Definition setIdeas (l : list StartupIdea.t) : M unit :=
  modify_view (fun v =>
    {| ideas := l; loading := loading v; investAmount := investAmount v;
       investingId := investingId v; snackbars := snackbars v;
       started_fetchIdeas := started_fetchIdeas v |}).
Definition setLoading (b : bool) : M unit :=
  modify_view (fun v =>
    {| ideas := ideas v; loading := b; investAmount := investAmount v;
       investingId := investingId v; snackbars := snackbars v;
       started_fetchIdeas := started_fetchIdeas v |}).
Definition setInvestAmount (f : gmap string string -> gmap string string) : M unit :=
  modify_view (fun v =>
    {| ideas := ideas v; loading := loading v; investAmount := f (investAmount v);
       investingId := investingId v; snackbars := snackbars v;
       started_fetchIdeas := started_fetchIdeas v |}).
Definition setInvestingId (i : option string) : M unit :=
  modify_view (fun v =>
    {| ideas := ideas v; loading := loading v; investAmount := investAmount v;
       investingId := i; snackbars := snackbars v;
       started_fetchIdeas := started_fetchIdeas v |}).
Definition enqueueSnackbar (m : Message) (variant : Variant) : M unit :=
  modify_view (fun v =>
    {| ideas := ideas v; loading := loading v; investAmount := investAmount v;
       investingId := investingId v; snackbars := snackbars v ++ [(m, variant)];
       started_fetchIdeas := started_fetchIdeas v |}).

(** A call of the async [fetchIdeas] that is not awaited: the caller goes on,
    and the fetch runs as a later step. *)
Definition start_fetchIdeas : M unit :=
  modify_view (fun v =>
    {| ideas := ideas v; loading := loading v; investAmount := investAmount v;
       investingId := investingId v; snackbars := snackbars v;
       started_fetchIdeas := S (started_fetchIdeas v) |}).
Definition finish_fetchIdeas : M unit :=
  modify_view (fun v =>
    {| ideas := ideas v; loading := loading v; investAmount := investAmount v;
       investingId := investingId v; snackbars := snackbars v;
       started_fetchIdeas := pred (started_fetchIdeas v) |}).

Definition setFormData (f : FormData) : M unit :=
  modify_post (fun p =>
    {| formData := f; post_loading := post_loading p; post_error := post_error p;
       openModal := openModal p; alerts := alerts p |}).
Definition setPostLoading (b : bool) : M unit :=
  modify_post (fun p =>
    {| formData := formData p; post_loading := b; post_error := post_error p;
       openModal := openModal p; alerts := alerts p |}).
Definition setError (e : option string) : M unit :=
  modify_post (fun p =>
    {| formData := formData p; post_loading := post_loading p; post_error := e;
       openModal := openModal p; alerts := alerts p |}).
Definition setModalState (b : bool) : M unit :=
  modify_post (fun p =>
    {| formData := formData p; post_loading := post_loading p;
       post_error := post_error p; openModal := b; alerts := alerts p |}).
Definition alert (text : string) : M unit :=
  modify_post (fun p =>
    {| formData := formData p; post_loading := post_loading p;
       post_error := post_error p; openModal := openModal p;
       alerts := alerts p ++ [text] |}).

(** [a || b] on strings: [undefined] and the empty string are falsy. *)
Definition or_else (a : option string) (b : string) : string :=
  match a with
  | Some s => if decide (s = "") then b else s
  | None => b
  end.

(** [error instanceof Error ? error.message : fallback] *)
Definition message_or (e : JsError) (fallback : string) : string :=
  if is_Error e then message e else fallback.

(** *** The record store *)

(** The answer [{ data, error }] of a Supabase query. *)
Record Response (A : Type) := { data : option A; error_of : option JsError }.
Arguments data {A} r.
Arguments error_of {A} r.

(** [order('created_at', { ascending: false })], as a stable insertion sort. *)
Fixpoint insert_desc (x : StartupIdea.t) (l : list StartupIdea.t)
  : list StartupIdea.t :=
  match l with
  | [] => [x]
  | y :: r =>
      if StartupIdea.created_at y <=? StartupIdea.created_at x then x :: l
      else y :: insert_desc x r
  end.

Definition order_created_at_desc (l : list StartupIdea.t) : list StartupIdea.t :=
  foldr insert_desc [] l.

(** [update({ status: s }).eq('id', i)] on the rows of the table *)
Definition set_status_where_id (i : string) (s : Status)
    (l : list StartupIdea.t) : list StartupIdea.t :=
  map (fun r => if decide (StartupIdea.id r = i)
                then StartupIdea.with_status s r else r) l.

Definition with_id (i : string) (r : StartupIdea.t) : StartupIdea.t :=
  {| StartupIdea.id := i;
     StartupIdea.wallet_address := StartupIdea.wallet_address r;
     StartupIdea.title := StartupIdea.title r;
     StartupIdea.description := StartupIdea.description r;
     StartupIdea.image_url := StartupIdea.image_url r;
     StartupIdea.money_needed := StartupIdea.money_needed r;
     StartupIdea.share_offered := StartupIdea.share_offered r;
     StartupIdea.end_date := StartupIdea.end_date r;
     StartupIdea.status := StartupIdea.status r;
     StartupIdea.created_at := StartupIdea.created_at r |}.

(** ** The handlers *)

Section Handlers.

Variable env : Env.

(** *** Supabase queries *)

(** [from('startup_ideas').select('*').order('created_at', ...)] *)
Definition select_ideas : M (Response (list StartupIdea.t)) :=
  call SelectIdeas ;;
  s ← get_state ;
  match select_ideas_error (supabase env) with
  | Some e => mret {| data := None; error_of := Some e |}
  | None =>
      mret {| data := Some (order_created_at_desc (startup_ideas (world s)));
              error_of := None |}
  end.

(** [from('startup_ideas').update({ status }).eq('id', i)] *)
Definition update_status (i : string) (st : Status) : M (option JsError) :=
  call (UpdateStatus i st) ;;
  match update_status_error (supabase env) i st with
  | Some e => mret (Some e)
  | None =>
      modify_world (fun w =>
        with_startup_ideas (set_status_where_id i st (startup_ideas w)) w) ;;
      mret None
  end.

(** [from('investments').insert([r])] *)
Definition insert_investment (r : Investment.t) : M (option JsError) :=
  call (InsertInvestment r) ;;
  match insert_investment_error (supabase env) r with
  | Some e => mret (Some e)
  | None =>
      modify_world (fun w => with_investments (investments w ++ [r]) w) ;;
      mret None
  end.

(** [from('investments').select('amount').eq('idea_id', i)] *)
Definition select_amounts (i : string) : M (Response (list float)) :=
  call (SelectAmounts i) ;;
  s ← get_state ;
  match select_amounts_error (supabase env) i with
  | Some e => mret {| data := None; error_of := Some e |}
  | None =>
      mret {| data :=
                Some (map Investment.amount
                        (filter (fun r => Investment.idea_id r = i)
                                (investments (world s))));
              error_of := None |}
  end.

(** [from('startup_ideas').insert([r]).select()]: the object carries no id,
    the store assigns one; the [id] of [r] is not read. *)
Definition insert_idea (r : StartupIdea.t) : M (Response (list StartupIdea.t)) :=
  call (InsertIdea r) ;;
  s ← get_state ;
  match insert_idea_error (supabase env) r with
  | Some e => mret {| data := None; error_of := Some e |}
  | None =>
      let row := with_id (assign_id (supabase env) (startup_ideas (world s))) r in
      modify_world (fun w => with_startup_ideas (startup_ideas w ++ [row]) w) ;;
      mret {| data := Some [row]; error_of := None |}
  end.

(** [if (error) throw error] *)
Definition throw_if (e : option JsError) : M unit :=
  match e with
  | Some e => throw e
  | None => mret tt
  end.

(** *** InvestorView.tsx *)

(** The callback mapped over the fetched rows (lines 59-74): an idea read
    as open whose end date has passed is updated to expired in the store,
    whatever the update answers, and returned as expired. *)
Definition reconcile (idea : StartupIdea.t) : M StartupIdea.t :=
  now ← new_Date ;
  let endDate := StartupIdea.end_date idea in
  if bool_decide (StartupIdea.status idea = open) && (endDate <? now) then
    update_status (StartupIdea.id idea) expired ;;
    mret (StartupIdea.with_status expired idea)
  else mret idea.

(** [Promise.all(rows.map(f))]: the callbacks start in order. *)
Fixpoint map_all {A B} (f : A -> M B) (l : list A) : M (list B) :=
  match l with
  | [] => mret []
  | a :: r => b ← f a ; bs ← map_all f r ; mret (b :: bs)
  end.

(** [fetchIdeas] (lines 48-84).  The [console.error] of the [catch] block
    writes to the console only and is left out. *)
Definition fetchIdeas : M unit :=
  try_catch_finally
    (r ← select_ideas ;
     throw_if (error_of r) ;;
     updatedIdeas ← map_all reconcile (default [] (data r)) ;
     setIdeas updatedIdeas)
    (fun _ => enqueueSnackbar FailedToFetchIdeas error)
    (setLoading false).

(** [allInvestments.reduce((sum, inv) => sum + inv.amount, 0)] *)
Definition totalInvested (amounts : list float) : float :=
  fold_left PrimFloat.add amounts PrimFloat.zero.

(** The amount typed for an idea: [parseFloat(investAmount[idea.id] || '0')] *)
Definition typed_amount (v : InvestorView) (idea : StartupIdea.t) : float :=
  JS.parseFloat (or_else (investAmount v !! StartupIdea.id idea) "0").

(** The payment object of lines 111-117. *)
Definition payment_of (idea : StartupIdea.t) (amount : float)
    (suggestedParams : Payment.SuggestedParams) : Payment.t :=
  {| Payment.sender := activeAddress env;
     Payment.receiver := StartupIdea.wallet_address idea;
     Payment.amount := JS.Math_floor (PrimFloat.mul amount JS.million);
     Payment.note := "Investment in: " +:+ StartupIdea.title idea;
     Payment.suggestedParams := suggestedParams |}.

(** [(amount / idea.money_needed) * 100] *)
Definition sharePercentage_of (idea : StartupIdea.t) (amount : float) : float :=
  PrimFloat.mul (PrimFloat.div amount (StartupIdea.money_needed idea)) JS.hundred.

(** The row of lines 138-145. *)
Definition investment_of (idea : StartupIdea.t) (amount sharePercentage : float)
    (txid : string) (invested_at : Z) : Investment.t :=
  {| Investment.idea_id := StartupIdea.id idea;
     Investment.investor_address := walletAddress env;
     Investment.amount := amount;
     Investment.share_percentage := sharePercentage;
     Investment.transaction_id := txid;
     Investment.invested_at := invested_at |}.

(** The [try] block of [handleInvest] (lines 102-174). *)
Definition invest_body (idea : StartupIdea.t) (amount : float) : M unit :=
  call GetTransactionParams ;;
  suggestedParams ←
    match getTransactionParams (algorand env) with
    | Ok p => mret p
    | Throw e => throw e
    end ;
  let txn := payment_of idea amount suggestedParams in
  call (MakePaymentTxn txn) ;;
  throw_if (makePaymentTxn (algorand env) txn) ;;
  call (EncodeUnsignedTransaction txn) ;;
  call (TransactionSigner txn) ;;
  throw_if (transactionSigner (algorand env) txn) ;;
  call (SendRawTransaction txn) ;;
  txid ←
    match sendRawTransaction (algorand env) txn with
    | Ok i => mret i
    | Throw e => throw e
    end ;
  enqueueSnackbar TransactionSent info ;;
  call (WaitForConfirmation txid 4) ;;
  throw_if (waitForConfirmation (algorand env) txid 4) ;;
  let sharePercentage := sharePercentage_of idea amount in
  invested_at ← new_Date ;
  investmentError ←
    insert_investment (investment_of idea amount sharePercentage txid invested_at) ;
  throw_if investmentError ;;
  r ← select_amounts (StartupIdea.id idea) ;
  throw_if (error_of r) ;;
  allInvestments ←
    match data r with
    | Some l => mret l
    | None => throw {| is_Error := true;
                       message := "Cannot read properties of null" |}
    end ;
  (if PrimFloat.leb (StartupIdea.money_needed idea) (totalInvested allInvestments)
   then update_status (StartupIdea.id idea) funded ;; mret tt
   else mret tt) ;;
  enqueueSnackbar (SuccessfullyInvested amount sharePercentage) success ;;
  setInvestAmount (fun prev => <[StartupIdea.id idea := ""]> prev) ;;
  start_fetchIdeas.

(** [handleInvest] (lines 86-184): the two checks on the typed amount, each
    with an early return, then the [try] block with its [catch] (whose
    [console.error] is left out) and [finally].  The status of [idea] is not
    read. *)
Definition handleInvest (idea : StartupIdea.t) : M unit :=
  s ← get_state ;
  let amount := typed_amount (view s) idea in
  if PrimFloat.leb amount PrimFloat.zero then
    enqueueSnackbar PleaseEnterAValidAmount warning
  else if PrimFloat.ltb (StartupIdea.money_needed idea) amount then
    enqueueSnackbar AmountExceedsMoneyNeeded warning
  else
    setInvestingId (Some (StartupIdea.id idea)) ;;
    try_catch_finally
      (invest_body idea amount)
      (fun e =>
         enqueueSnackbar
           (ErrorMessage (message_or e "Failed to process investment")) error)
      (setInvestingId None).

(** [handleAmountChange] (lines 186-188) *)
Definition handleAmountChange (ideaId value : string) : M unit :=
  setInvestAmount (fun prev => <[ideaId := value]> prev).

(** What the component renders (lines 190-282), as far as the Invest button
    goes: a spinner while loading, a notice when there is no idea, else one
    card per idea; the card has an Invest button only when
    [idea.status === 'open'], disabled while that idea is being invested
    in. *)
Record Card := { card_idea : StartupIdea.t; invest_disabled : option bool }.

Inductive Rendered :=
| Spinner
| NoIdeas
| Cards (l : list Card).

Definition card_of (v : InvestorView) (idea : StartupIdea.t) : Card :=
  {| card_idea := idea;
     invest_disabled :=
       if decide (StartupIdea.status idea = open)
       then Some (bool_decide (investingId v = Some (StartupIdea.id idea)))
       else None |}.

Definition render (v : InvestorView) : Rendered :=
  if loading v then Spinner
  else if Nat.eqb (length (ideas v)) 0 then NoIdeas
  else Cards (map (card_of v) (ideas v)).

(** A click where the Invest button of the [i]-th card would be: it runs
    [handleInvest] when that button exists and is enabled. *)
Definition clickInvest (i : nat) : M unit :=
  s ← get_state ;
  match render (view s) with
  | Cards l =>
      match l !! i with
      | Some c =>
          match invest_disabled c with
          | Some false => handleInvest (card_idea c)
          | _ => mret tt
          end
      | None => mret tt
      end
  | _ => mret tt
  end.

(** *** PostIdea.tsx *)

(** [handleSubmit] (lines 33-77 of PostIdea.tsx), after
    [e.preventDefault()].  The object literal is evaluated in order: the end
    date is written out, which throws on an invalid date, before the clock is
    read again for [created_at]. *)
Definition handleSubmit : M unit :=
  setPostLoading true ;;
  setError None ;;
  try_catch_finally
    (s ← get_state ;
     let f := formData (post s) in
     t ← new_Date ;
     let endDate :=
       JSDate.setDate_getDate_plus (LocalTZA env) (Some t)
                                   (JS.parseInt (fd_duration f)) in
     end_date ← toISOString endDate ;
     created_at ← new_Date ;
     r ← insert_idea
           {| StartupIdea.id := "";
              StartupIdea.wallet_address := walletAddress env;
              StartupIdea.title := fd_title f;
              StartupIdea.description := fd_description f;
              StartupIdea.image_url :=
                if decide (fd_imageUrl f = "") then None else Some (fd_imageUrl f);
              StartupIdea.money_needed := JS.parseFloat (fd_moneyNeeded f);
              StartupIdea.share_offered := fd_shareOffered f;
              StartupIdea.end_date := end_date;
              StartupIdea.status := open;
              StartupIdea.created_at := created_at |} ;
     throw_if (error_of r) ;;
     setFormData emptyForm ;;
     setModalState false ;;
     alert "Idea posted successfully!")
    (fun err => setError (Some (message_or err "Failed to post idea")))
    (setPostLoading false).

(** [setFormData(prev => ({ ...prev, [name]: value }))], for the names of
    the form's inputs. *)
Definition handleInputChange (name value : string) : M unit :=
  modify_post (fun p =>
    let f := formData p in
    let pick (field : string) (old : string) :=
      if decide (name = field) then value else old in
    {| formData :=
         {| fd_title := pick "title" (fd_title f);
            fd_description := pick "description" (fd_description f);
            fd_imageUrl := pick "imageUrl" (fd_imageUrl f);
            fd_moneyNeeded := pick "moneyNeeded" (fd_moneyNeeded f);
            fd_shareOffered := pick "shareOffered" (fd_shareOffered f);
            fd_duration := pick "duration" (fd_duration f) |};
       post_loading := post_loading p; post_error := post_error p;
       openModal := openModal p; alerts := alerts p |}).

(** *** Events

    What can happen to a session: the component mounts or the store
    notifies a change (both call [fetchIdeas]); a [fetchIdeas] started by
    [handleInvest] runs; the user types an amount, clicks Invest, edits or
    submits the form. *)
Inductive Event :=
| Refresh
| RunStartedFetch
| AmountTyped (ideaId value : string)
| InvestClicked (i : nat)
| FormEdited (name value : string)
| FormSubmitted.

Definition handle (ev : Event) : M unit :=
  match ev with
  | Refresh => fetchIdeas
  | RunStartedFetch =>
      s ← get_state ;
      if Nat.eqb (started_fetchIdeas (view s)) 0 then mret tt
      else finish_fetchIdeas ;; fetchIdeas
  | AmountTyped i v => handleAmountChange i v
  | InvestClicked i => clickInvest i
  | FormEdited name value => handleInputChange name value
  | FormSubmitted => handleSubmit
  end.

End Handlers.

(** ** What the ledger answers along the [try] block of [handleInvest]

    The answers of the five ledger steps in the order the block takes them:
    the transaction id when all pass, else the first error. *)
Definition ledger_answer (env : Env) (idea : StartupIdea.t) (amount : float)
  : Res string :=
  match getTransactionParams (algorand env) with
  | Throw e => Throw e
  | Ok sp =>
      let txn := payment_of env idea amount sp in
      match makePaymentTxn (algorand env) txn with
      | Some e => Throw e
      | None =>
          match transactionSigner (algorand env) txn with
          | Some e => Throw e
          | None =>
              match sendRawTransaction (algorand env) txn with
              | Throw e => Throw e
              | Ok txid =>
                  match waitForConfirmation (algorand env) txid 4 with
                  | Some e => Throw e
                  | None => Ok txid
                  end
              end
          end
      end
  end.

(** The amount passes the two checks at the head of [handleInvest]. *)
Definition amount_accepted (idea : StartupIdea.t) (amount : float) : bool :=
  negb (PrimFloat.leb amount PrimFloat.zero)
  && negb (PrimFloat.ltb (StartupIdea.money_needed idea) amount).

(** The calls a handler added to the log. *)
Definition new_calls (s s' : St) : list Call :=
  drop (length (calls (world s))) (calls (world s')).


(** A row after expiry writes decided on the snapshot [l]: as it was, or set
    to expired because a row of the snapshot with its id was open. *)
Definition expired_from (l : list StartupIdea.t) (r r' : StartupIdea.t) : Prop :=
  r' = r
  \/ (r' = StartupIdea.with_status expired r
      /\ exists a, In a l /\ StartupIdea.id a = StartupIdea.id r
                   /\ StartupIdea.status a = open).

Definition sorted_desc (l : list StartupIdea.t) : Prop :=
  StronglySorted (fun a b => StartupIdea.created_at b <= StartupIdea.created_at a) l.

(** The state in which [fetchIdeas] maps over the rows: the query is logged. *)
Definition queried (s : St) : St :=
  set_world (with_calls (calls (world s) ++ [SelectIdeas]) (world s)) s.

(** ** Vocabulary of the properties *)

(** A status out of which the lifecycle has no transition. *)
Definition closed (st : Status) : Prop := st = funded \/ st = expired.

(** No call of the run from [s] to [s'] went to the ledger. *)
Definition no_ledger_call (s s' : St) : Prop :=
  Forall (fun c => is_ledger_call c = false) (new_calls s s').




(** [end_date == created_at + d days] *)
Definition ends_after_days (d : Z) (r : StartupIdea.t) : Prop :=
  StartupIdea.end_date r = StartupIdea.created_at r + d * JSDate.msPerDay.

(** ** Sample sessions *)

Module Example.

Definition timed_out : JsError :=
  {| is_Error := true; message := "Transaction not confirmed after 4 rounds" |}.

Definition params : Payment.SuggestedParams :=
  {| Payment.fee := 1000; Payment.firstValid := 1; Payment.lastValid := 1001 |}.

(** A ledger whose signer answers [sign] and whose confirmation wait
    answers [confirm]. *)
Definition algod (sign confirm : option JsError) : Algorand :=
  {| getTransactionParams := Ok params;
     makePaymentTxn := fun _ => None;
     transactionSigner := fun _ => sign;
     sendRawTransaction := fun _ => Ok "TX1";
     waitForConfirmation := fun _ _ => confirm |}.

Definition store : Supabase :=
  {| select_ideas_error := None;
     update_status_error := fun _ _ => None;
     insert_investment_error := fun _ => None;
     select_amounts_error := fun _ => None;
     insert_idea_error := fun _ => None;
     assign_id := fun l => "idea-" +:+ pretty (length l) |}.

Definition env (sign confirm : option JsError) : Env :=
  {| algorand := algod sign confirm;
     supabase := store;
     LocalTZA := fun _ _ => 0;
     walletAddress := "INVESTOR";
     activeAddress := Some "INVESTOR" |}.

Definition env_ok : Env := env None None.

(** An idea of goal 1000 that ends at time 1000. *)
Definition idea (st : Status) : StartupIdea.t :=
  {| StartupIdea.id := "idea-0";
     StartupIdea.wallet_address := "FOUNDER";
     StartupIdea.title := "Solar kiosk";
     StartupIdea.description := "Off-grid charging";
     StartupIdea.image_url := None;
     StartupIdea.money_needed := 1000%float;
     StartupIdea.share_offered := "10% equity";
     StartupIdea.end_date := 1000;
     StartupIdea.status := st;
     StartupIdea.created_at := 0 |}.

Definition form (duration : string) : FormData :=
  {| fd_title := "Solar kiosk"; fd_description := "Off-grid charging";
     fd_imageUrl := ""; fd_moneyNeeded := "1000";
     fd_shareOffered := "10% equity"; fd_duration := duration |}.

(** A session whose store holds [stored], whose view shows [shown] with
    [typed] in the amount field of the idea, at time [now]. *)
Definition session (stored shown : list StartupIdea.t) (typed : string)
    (now : Z) (clock : list N) : St :=
  {| world := {| startup_ideas := stored; investments := []; calls := [];
                 time := now; ticks := clock |};
     view := {| ideas := shown; loading := false;
                investAmount := {[ "idea-0" := typed ]};
                investingId := None; snackbars := [];
                started_fetchIdeas := 0 |};
     post := {| formData := form "30"; post_loading := false;
                post_error := None; openModal := true; alerts := [] |} |}.

(** The idea is in the store and in the list with status [st]; [typed] is
    in its amount field; the time is 500. *)
Definition showing (st : Status) (typed : string) : St :=
  session [idea st] [idea st] typed 500 [].

(** The store holds the idea as funded while the list still shows it
    open. *)
Definition stale_funded : St := session [idea funded] [idea open] "10" 500 [].

(** The idea is open in the store, its end date has passed, and the view
    has not fetched yet. *)
Definition overdue : St := session [idea open] [] "" 2000 [].

(** The form is filled in with a duration of 30 days; one millisecond
    passes between the two readings of the clock. *)
Definition submitting : St := session [] [] "" 1000 [0%N; 1%N].




End Example.

(** ** Home.tsx *)

Module Home.

Inductive UserType := startuper | investor.

(** The three [useState] cells of [Home]. *)
Record t := {
  openWalletModal : bool;
  userType : option UserType;
  openPostModal : bool
}.

Definition initial : t :=
  {| openWalletModal := false; userType := None; openPostModal := false |}.

Definition toggleWalletModal (h : t) : t :=
  {| openWalletModal := negb (openWalletModal h); userType := userType h;
     openPostModal := openPostModal h |}.

Definition selectUserType (type : UserType) (h : t) : t :=
  {| openWalletModal := openWalletModal h; userType := Some type;
     openPostModal :=
       match type with
       | startuper => true
       | investor => openPostModal h
       end |}.

Definition resetUserType (h : t) : t :=
  {| openWalletModal := openWalletModal h; userType := None; openPostModal := false |}.

(** [setOpenPostModal], handed to [PostIdea] as [setModalState] *)
Definition setOpenPostModal (b : bool) (h : t) : t :=
  {| openWalletModal := openWalletModal h; userType := userType h; openPostModal := b |}.

(** [activeAddress] is truthy: not null and not the empty string. *)
Definition truthy (activeAddress : option string) : bool :=
  match activeAddress with
  | Some a => negb (String.eqb a "")
  | None => false
  end.

Inductive Button :=
| WalletConnection
| SelectStartuper
| SelectInvestor
| ChangeWallet
| BackToRoleSelection.

(** The buttons of lines 43-78: the wallet button without an address, the
    role buttons and the wallet change with an address and no role, else the
    way back. *)
Definition offers (activeAddress : option string) (h : t) (b : Button) : bool :=
  if negb (truthy activeAddress) then
    match b with WalletConnection => true | _ => false end
  else
    match userType h with
    | None =>
        match b with
        | SelectStartuper | SelectInvestor | ChangeWallet => true
        | _ => false
        end
    | Some _ => match b with BackToRoleSelection => true | _ => false end
    end.

Definition onClick (b : Button) (h : t) : t :=
  match b with
  | WalletConnection | ChangeWallet => toggleWalletModal h
  | SelectStartuper => selectUserType startuper h
  | SelectInvestor => selectUserType investor h
  | BackToRoleSelection => resetUserType h
  end.

(** Lines 81-91: which of the two views is mounted. *)
Definition mounts_PostIdea (h : t) : bool :=
  match userType h with Some startuper => true | _ => false end.
Definition mounts_InvestorView (h : t) : bool :=
  match userType h with Some investor => true | _ => false end.

(** What happens to [Home]: a click on a button it offers, the wallet modal
    closing itself ([closeModal] is [toggleWalletModal]), or [PostIdea]
    calling [setModalState(false)], its only use of it. *)
Inductive Event :=
| Click (b : Button)
| WalletModalCloses
| PostIdeaClosesModal.

Definition step (activeAddress : option string) (ev : Event) (h : t) : t :=
  match ev with
  | Click b => if offers activeAddress h b then onClick b h else h
  | WalletModalCloses => toggleWalletModal h
  | PostIdeaClosesModal => setOpenPostModal false h
  end.

(** The state after a run of events, each with the wallet address at its
    time. *)
Definition run (evs : list (option string * Event)) (h : t) : t :=
  foldl (fun h ev => step (fst ev) (snd ev) h) h evs.

End Home.

(** ** Sample sessions with failing services *)

Module Faulty.

Definition unavailable : JsError :=
  {| is_Error := false; message := "service unavailable" |}.

(** A store that answers the listed calls with an error. *)
Definition store (select insert read post : option JsError) : Supabase :=
  {| select_ideas_error := select;
     update_status_error := fun _ _ => None;
     insert_investment_error := fun _ => insert;
     select_amounts_error := fun _ => read;
     insert_idea_error := fun _ => post;
     assign_id := assign_id Example.store |}.

Definition env (select insert read post : option JsError) : Env :=
  {| algorand := Example.algod None None;
     supabase := store select insert read post;
     LocalTZA := fun _ _ => 0;
     walletAddress := "INVESTOR";
     activeAddress := Some "INVESTOR" |}.

(** The idea is shown as open and is being invested in. *)
Definition investing : St :=
  exec (setInvestingId (Some "idea-0")) (Example.showing open "400").

(** The form is submitted with the duration field empty. *)
Definition no_duration : St :=
  exec (setFormData (Example.form "")) Example.submitting.



End Faulty.

(** A stored row after the map of [fetchIdeas] returned [out]: as it was, or
    set to expired, and then a returned row of its id is expired. *)
Definition expired_as_listed (out : list StartupIdea.t) (r r' : StartupIdea.t) : Prop :=
  r' = r
  \/ (r' = StartupIdea.with_status expired r
      /\ exists b, In b out /\ StartupIdea.id b = StartupIdea.id r
                   /\ StartupIdea.status b = expired).

(** The call that puts a payment on the ledger. *)
Definition is_submission (c : Call) : bool :=
  match c with
  | SendRawTransaction _ => true
  | _ => false
  end.

(** The amounts a fresh read of [investments] gives for an idea. *)
Definition amounts_of (i : string) (l : list Investment.t) : list float :=
  map Investment.amount (filter (fun r => Investment.idea_id r = i) l).

Arguments JS.parseFloat : simpl never.
Arguments JS.parseInt : simpl never.
Arguments JS.Math_floor : simpl never.
Arguments typed_amount : simpl never.
Arguments totalInvested : simpl never.
Arguments PrimFloat.leb : simpl never.
Arguments PrimFloat.ltb : simpl never.
Arguments PrimFloat.mul : simpl never.
Arguments PrimFloat.div : simpl never.
Arguments order_created_at_desc : simpl never.
Arguments set_status_where_id : simpl never.
Arguments tick : simpl never.
Arguments investment_of : simpl never.
Arguments payment_of : simpl never.
Arguments sharePercentage_of : simpl never.

(** ** Running the handlers *)

Ltac unfold_monad :=
  unfold exec, mbind, M_bind, mret, M_ret, throw_if, toISOString, throw,
    try_catch_finally,
    get_state, call, enqueueSnackbar, setInvestingId, setInvestAmount, setIdeas,
    setLoading, start_fetchIdeas, finish_fetchIdeas, modify_world, modify_view,
    modify_post, set_world, set_view, set_post in *.

(** Splits [ledger_answer env idea a = r] into the answers of the steps. *)
Ltac ledger_steps H :=
  unfold ledger_answer in H;
  repeat match type of H with
         | context [match ?x with _ => _ end] => destruct x eqn:?
         end;
  try discriminate H.

Lemma tick_time_le (w : World) : time w <= time (tick w).
Proof. unfold tick. destruct (ticks w); simpl; lia. Qed.

(** Runs a handler on a state split into its fields, in both cases of the
    clock, and splits on every answer of the environment and every check the
    run reaches. *)
Ltac split_answers :=
  repeat (simpl in *;
          match goal with
          | |- context [PrimFloat.leb ?a ?b] => destruct (PrimFloat.leb a b) eqn:?
          | |- context [PrimFloat.ltb ?a ?b] => destruct (PrimFloat.ltb a b) eqn:?
          | |- context [getTransactionParams ?a] =>
              destruct (getTransactionParams a) eqn:?
          | |- context [makePaymentTxn ?a ?b] => destruct (makePaymentTxn a b) eqn:?
          | |- context [transactionSigner ?a ?b] =>
              destruct (transactionSigner a b) eqn:?
          | |- context [sendRawTransaction ?a ?b] =>
              destruct (sendRawTransaction a b) eqn:?
          | |- context [waitForConfirmation ?a ?b ?c] =>
              destruct (waitForConfirmation a b c) eqn:?
          | |- context [insert_investment_error ?a ?b] =>
              destruct (insert_investment_error a b) eqn:?
          | |- context [select_amounts_error ?a ?b] =>
              destruct (select_amounts_error a b) eqn:?
          | |- context [update_status_error ?a ?b ?c] =>
              destruct (update_status_error a b c) eqn:?
          | |- context [insert_idea_error ?a ?b] =>
              destruct (insert_idea_error a b) eqn:?
          | |- context [select_ideas_error ?a] =>
              destruct (select_ideas_error a) eqn:?
          end);
  simpl in *.

Ltac run_invest s :=
  destruct s as [[tbl inv cs now tk] v p];
  unfold new_calls, handleInvest, invest_body, insert_investment,
    select_amounts, update_status, new_Date, amounts_of in *;
  unfold_monad; unfold with_calls, with_investments, with_startup_ideas, tick in *;
  destruct tk; simpl in *.

Section Invest.

Variable env : Env.

Lemma handleInvest_nonpositive (idea : StartupIdea.t) (s : St) :
  PrimFloat.leb (typed_amount (view s) idea) PrimFloat.zero = true ->
  handleInvest env idea s
  = enqueueSnackbar PleaseEnterAValidAmount warning s.
Proof.
  intros H. unfold handleInvest. unfold_monad. simpl. rewrite H. reflexivity.
Qed.

Lemma handleInvest_exceeds (idea : StartupIdea.t) (s : St) :
  PrimFloat.leb (typed_amount (view s) idea) PrimFloat.zero = false ->
  PrimFloat.ltb (StartupIdea.money_needed idea) (typed_amount (view s) idea) = true ->
  handleInvest env idea s
  = enqueueSnackbar AmountExceedsMoneyNeeded warning s.
Proof.
  intros H1 H2. unfold handleInvest. unfold_monad. simpl. rewrite H1, H2. reflexivity.
Qed.

Lemma amount_accepted_checks (idea : StartupIdea.t) (a : float) :
  amount_accepted idea a = true ->
  PrimFloat.leb a PrimFloat.zero = false
  /\ PrimFloat.ltb (StartupIdea.money_needed idea) a = false.
Proof.
  unfold amount_accepted. intros H. apply andb_prop in H as [H1 H2].
  apply negb_true_iff in H1. apply negb_true_iff in H2. auto.
Qed.



(** The run of [handleInvest] when the amount passes the checks, the ledger
    confirms, and the insert and the fresh read answer without error. *)
Section Committed.

Variables (idea : StartupIdea.t) (s : St) (txid : string).

Let amount := typed_amount (view s) idea.
Let row :=
  investment_of env idea amount (sharePercentage_of idea amount) txid
                (time (tick (world s))).
Let total :=
  totalInvested (amounts_of (StartupIdea.id idea) (investments (world s) ++ [row])).
Let s' := exec (handleInvest env idea) s.

Hypothesis accepted : amount_accepted idea amount = true.
Hypothesis confirmed : ledger_answer env idea amount = Ok txid.
Hypothesis inserted : insert_investment_error (supabase env) row = None.
Hypothesis read : select_amounts_error (supabase env) (StartupIdea.id idea) = None.

Ltac run_committed :=
  pose proof (amount_accepted_checks idea amount accepted) as [Hle Hlt];
  pose proof confirmed as Hc; ledger_steps Hc;
  injection Hc as Hc; subst;
  pose proof inserted as Hi; pose proof read as Hr;
  subst s' total row amount;
  destruct s as [[tbl inv cs now tk] v p];
  unfold new_calls, handleInvest, invest_body, insert_investment,
    select_amounts, update_status, new_Date, amounts_of in *;
  unfold_monad; unfold with_calls, with_investments, with_startup_ideas, tick in *;
  destruct tk; simpl in *;
  rewrite Hle, Hlt; simpl;
  repeat match goal with
         | H : ?x = _ |- context [?x] => rewrite H; simpl
         end.

Lemma handleInvest_committed :
  investments (world s') = investments (world s) ++ [row]
  /\ startup_ideas (world s')
     = (if PrimFloat.leb (StartupIdea.money_needed idea) total
        then match update_status_error (supabase env) (StartupIdea.id idea) funded with
             | None => set_status_where_id (StartupIdea.id idea) funded
                                           (startup_ideas (world s))
             | Some _ => startup_ideas (world s)
             end
        else startup_ideas (world s))
  /\ (exists sp,
        getTransactionParams (algorand env) = Ok sp
        /\ new_calls s s'
           = [GetTransactionParams;
              MakePaymentTxn (payment_of env idea amount sp);
              EncodeUnsignedTransaction (payment_of env idea amount sp);
              TransactionSigner (payment_of env idea amount sp);
              SendRawTransaction (payment_of env idea amount sp);
              WaitForConfirmation txid 4;
              InsertInvestment row;
              SelectAmounts (StartupIdea.id idea)]
             ++ (if PrimFloat.leb (StartupIdea.money_needed idea) total
                 then [UpdateStatus (StartupIdea.id idea) funded] else []))
  /\ snackbars (view s')
     = snackbars (view s)
       ++ [(TransactionSent, info);
           (SuccessfullyInvested amount (sharePercentage_of idea amount), success)]
  /\ investingId (view s') = None
  /\ started_fetchIdeas (view s') = S (started_fetchIdeas (view s)).
Proof.
  run_committed.
  all: split_answers.
  all: rewrite <- ?app_assoc, ?drop_app_length; simpl.
  all: repeat split; eauto.
Qed.

End Committed.

End Invest.

Section Fetch.

Variable env : Env.


Lemma Forall2_In_right {A B} (R : A -> B -> Prop) (l : list A) (k : list B) (y : B) :
  Forall2 R l k -> In y k -> exists x, In x l /\ R x y.
Proof.
  induction 1 as [|x y' l k Hxy _ IH]; intros Hin; [destruct Hin|].
  destruct Hin as [<-|Hin].
  - exists x. split; [left; reflexivity|exact Hxy].
  - destruct (IH Hin) as (x' & Hx' & Hr). exists x'. split; [right; exact Hx'|exact Hr].
Qed.

Lemma Forall2_In_left {A B} (R : A -> B -> Prop) (l : list A) (k : list B) (x : A) :
  Forall2 R l k -> In x l -> exists y, In y k /\ R x y.
Proof.
  induction 1 as [|x' y l k Hxy _ IH]; intros Hin; [destruct Hin|].
  destruct Hin as [<-|Hin].
  - exists y. split; [left; reflexivity|exact Hxy].
  - destruct (IH Hin) as (y' & Hy' & Hr). exists y'. split; [right; exact Hy'|exact Hr].
Qed.

(** One callback of the map in [fetchIdeas]. *)
Lemma reconcile_spec (a : StartupIdea.t) (s : St) :
  exists b s',
    reconcile env a s = (Ok b, s')
    /\ view s' = view s /\ post s' = post s
    /\ investments (world s') = investments (world s)
    /\ time (world s) <= time (world s')
    /\ ((b = a /\ startup_ideas (world s') = startup_ideas (world s)
         /\ ~ (StartupIdea.status a = open
               /\ StartupIdea.end_date a < time (world s')))
        \/ (StartupIdea.status a = open
            /\ StartupIdea.end_date a < time (world s')
            /\ b = StartupIdea.with_status expired a
            /\ startup_ideas (world s')
               = match update_status_error (supabase env) (StartupIdea.id a) expired with
                 | None => set_status_where_id (StartupIdea.id a) expired
                                               (startup_ideas (world s))
                 | Some _ => startup_ideas (world s)
                 end)).
Proof.
  destruct s as [[tbl inv cs now tk] v p].
  unfold reconcile, update_status, new_Date. unfold_monad.
  unfold with_calls, with_startup_ideas, tick.
  destruct tk as [|dt tk]; simpl.
  all: match goal with
       | |- context [bool_decide ?P && (?x <? ?y)] =>
           destruct (bool_decide_reflect P) as [Hs|Hs];
           destruct (Z.ltb_spec x y) as [Ht|Ht]
       end; simpl.
  all: try (do 2 eexists; split; [reflexivity|]; simpl;
            do 4 (split; [first [reflexivity | lia]|]);
            left; repeat split; try reflexivity; intros [? ?];
            (contradiction || lia)).
  all: destruct (update_status_error _ _ _); simpl.
  all: do 2 eexists; split; [reflexivity|]; simpl;
       do 4 (split; [first [reflexivity | lia]|]);
       right; repeat split; try reflexivity; auto.
Qed.

Lemma expired_from_id (L : list StartupIdea.t) (r r' : StartupIdea.t) :
  expired_from L r r' -> StartupIdea.id r' = StartupIdea.id r.
Proof. intros [->|[-> _]]; reflexivity. Qed.

Lemma expired_from_refl (L tbl : list StartupIdea.t) :
  Forall2 (expired_from L) tbl tbl.
Proof. induction tbl; constructor; auto. left; reflexivity. Qed.

(** A write of expired for an open row of the snapshot, followed by further
    such writes, is a sequence of such writes. *)
Lemma expired_from_write (L tbl tbl' : list StartupIdea.t) (a : StartupIdea.t) :
  In a L -> StartupIdea.status a = open ->
  Forall2 (expired_from L)
          (set_status_where_id (StartupIdea.id a) expired tbl) tbl' ->
  Forall2 (expired_from L) tbl tbl'.
Proof.
  intros Ha Hst. unfold set_status_where_id. revert tbl'.
  induction tbl as [|r tbl IH]; intros tbl' H; simpl in H.
  - exact H.
  - inversion H as [|x y l1 l2 Hr Hrest]; subst. constructor; [|apply IH; exact Hrest].
    destruct (decide (StartupIdea.id r = StartupIdea.id a)) as [Heq|Hne].
    + right. split.
      * destruct Hr as [->|[-> _]]; reflexivity.
      * exists a. auto.
    + exact Hr.
Qed.

(** The map of [fetchIdeas] over a snapshot [l] of rows, part of [L]. *)
Lemma map_all_reconcile (L l : list StartupIdea.t) :
  incl l L ->
  forall s, exists out s',
    map_all (reconcile env) l s = (Ok out, s')
    /\ view s' = view s /\ post s' = post s
    /\ investments (world s') = investments (world s)
    /\ time (world s) <= time (world s')
    /\ Forall2 (fun a b =>
                  (b = a \/ (StartupIdea.status a = open
                             /\ b = StartupIdea.with_status expired a))
                  /\ (StartupIdea.status a = open ->
                      StartupIdea.end_date a < time (world s) ->
                      b = StartupIdea.with_status expired a)) l out
    /\ Forall2 (expired_from L) (startup_ideas (world s)) (startup_ideas (world s')).
Proof.
  induction l as [|a l IH]; intros Hincl s.
  - exists [], s. simpl. repeat split; try reflexivity; try lia.
    + constructor.
    + apply expired_from_refl.
  - destruct (reconcile_spec a s) as (b & s1 & Hrun & Hv & Hp & Hinv & Ht & Hcase).
    destruct (IH (fun x Hx => Hincl x (or_intror Hx)) s1)
      as (out & s' & Hrun' & Hv' & Hp' & Hinv' & Ht' & Hout & Htbl).
    exists (b :: out), s'. split.
    { simpl. unfold mbind, M_bind, mret, M_ret. rewrite Hrun, Hrun'. reflexivity. }
    split; [congruence|]. split; [congruence|]. split; [congruence|].
    split; [lia|]. split.
    + constructor.
      * destruct Hcase as [(-> & _ & Hno)|(Hst & Hend & -> & _)].
        -- split; [left; reflexivity|]. intros Hst Hend. exfalso. apply Hno.
           split; [exact Hst|lia].
        -- split; [right; auto|auto].
      * eapply Forall2_impl; [exact Hout|]. intros x y [H1 H2]. split; [exact H1|].
        intros Hst Hend. apply H2; [exact Hst|lia].
    + destruct Hcase as [(_ & Heq & _)|(Hst & Hend & _ & Heq)].
      * rewrite <- Heq. exact Htbl.
      * destruct (update_status_error _ _ _).
        -- rewrite <- Heq. exact Htbl.
        -- apply (expired_from_write L _ _ a); [apply Hincl; left; reflexivity|exact Hst|].
           rewrite <- Heq. exact Htbl.
Qed.

(** When the store accepts the writes, every row with the id of an open,
    overdue row of the snapshot is expired afterwards. *)
Lemma map_all_reconcile_written (l : list StartupIdea.t) :
  (forall i, update_status_error (supabase env) i expired = None) ->
  forall s out s',
    map_all (reconcile env) l s = (Ok out, s') ->
    forall a r',
      In a l -> StartupIdea.status a = open ->
      StartupIdea.end_date a < time (world s) ->
      In r' (startup_ideas (world s')) ->
      StartupIdea.id r' = StartupIdea.id a ->
      StartupIdea.status r' = expired.
Proof.
  intros Hok. induction l as [|a0 l IH]; intros s out s' Hrun a r' Ha Hst Hend Hr' Hid.
  - destruct Ha.
  - destruct (reconcile_spec a0 s) as (b & s1 & Hrun1 & _ & _ & _ & Ht & Hcase).
    destruct (map_all_reconcile l l (fun x H => H) s1)
      as (out' & s2 & Hrun2 & _ & _ & _ & _ & _ & Htbl).
    simpl in Hrun. unfold mbind, M_bind, mret, M_ret in Hrun.
    rewrite Hrun1, Hrun2 in Hrun. injection Hrun as <- <-.
    destruct Ha as [<-|Ha].
    + destruct Hcase as [(_ & _ & Hno)|(_ & _ & _ & Heq)].
      { exfalso. apply Hno. split; [exact Hst|lia]. }
      rewrite Hok in Heq.
      destruct (Forall2_In_right _ _ _ _ Htbl Hr') as (r1 & Hr1 & Hrel).
      rewrite Heq in Hr1. unfold set_status_where_id in Hr1.
      apply in_map_iff in Hr1 as (r & <- & _).
      apply expired_from_id in Hrel as Hid1.
      destruct (decide (StartupIdea.id r = StartupIdea.id a0)) as [_|Hne].
      * destruct Hrel as [->|[-> _]]; reflexivity.
      * exfalso. apply Hne. congruence.
    + eapply (IH s1); eauto. lia.
Qed.

(** The calls of one callback: the write is issued for an open idea whose
    end date is before the time at which the callback starts. *)
Lemma reconcile_calls (a : StartupIdea.t) (s : St) :
  exists added,
    calls (world (snd (reconcile env a s))) = calls (world s) ++ added
    /\ (StartupIdea.status a = open ->
        StartupIdea.end_date a < time (world s) ->
        added = [UpdateStatus (StartupIdea.id a) expired]).
Proof.
  destruct s as [[tbl inv cs now tk] v p].
  unfold reconcile, update_status, new_Date. unfold_monad.
  unfold with_calls, with_startup_ideas, tick.
  destruct tk as [|dt tk]; simpl.
  all: match goal with
       | |- context [bool_decide ?P && (?x <? ?y)] =>
           destruct (bool_decide_reflect P) as [Hs|Hs];
           destruct (Z.ltb_spec x y) as [Ht|Ht]
       end; simpl.
  all: try destruct (update_status_error _ _ _); simpl.
  all: try (exists [UpdateStatus (StartupIdea.id a) expired]; split; reflexivity).
  all: exists []; rewrite app_nil_r; split; [reflexivity|].
  all: intros Hopen Hend; first [contradiction | lia].
Qed.

Lemma map_all_reconcile_calls (l : list StartupIdea.t) :
  forall s out s',
    map_all (reconcile env) l s = (Ok out, s') ->
    exists added,
      calls (world s') = calls (world s) ++ added
      /\ forall a,
          In a l -> StartupIdea.status a = open ->
          StartupIdea.end_date a < time (world s) ->
          In (UpdateStatus (StartupIdea.id a) expired) added.
Proof.
  induction l as [|a0 l IH]; intros s out s' Hrun.
  - simpl in Hrun. injection Hrun as <- <-. exists []. rewrite app_nil_r.
    split; [reflexivity|]. intros a [].
  - destruct (reconcile_spec a0 s) as (b & s1 & Hrun1 & _ & _ & _ & Ht & _).
    destruct (reconcile_calls a0 s) as (added1 & Hc1 & Hw1).
    rewrite Hrun1 in Hc1. simpl in Hc1.
    destruct (map_all_reconcile l l (fun x H => H) s1) as (out' & s2 & Hrun2 & _).
    simpl in Hrun. unfold mbind, M_bind, mret, M_ret in Hrun.
    rewrite Hrun1, Hrun2 in Hrun. injection Hrun as <- <-.
    destruct (IH s1 out' s2 Hrun2) as (added2 & Hc2 & Hw2).
    exists (added1 ++ added2). split; [rewrite Hc2, Hc1, app_assoc; reflexivity|].
    intros a [<-|Ha] Hopen Hend; apply in_or_app.
    + left. rewrite (Hw1 Hopen Hend). left. reflexivity.
    + right. apply Hw2; auto. lia.
Qed.

(** *** The ordered query *)

Lemma insert_desc_perm (x : StartupIdea.t) (l : list StartupIdea.t) :
  Permutation (insert_desc x l) (x :: l).
Proof.
  induction l as [|y l IH]; simpl; [reflexivity|].
  destruct (_ <=? _); [reflexivity|].
  rewrite IH. apply perm_swap.
Qed.

Lemma order_created_at_desc_perm (l : list StartupIdea.t) :
  Permutation (order_created_at_desc l) l.
Proof.
  unfold order_created_at_desc. induction l as [|x l IH]; simpl; [reflexivity|].
  rewrite insert_desc_perm. constructor. exact IH.
Qed.

Lemma insert_desc_sorted (x : StartupIdea.t) (l : list StartupIdea.t) :
  sorted_desc l -> sorted_desc (insert_desc x l).
Proof.
  unfold sorted_desc. induction l as [|y l IH]; intros Hs; simpl.
  - repeat constructor.
  - inversion Hs as [|? ? Hl Hy]; subst.
    destruct (Z.leb_spec (StartupIdea.created_at y) (StartupIdea.created_at x)) as [Hle|Hlt].
    + constructor; [exact Hs|]. constructor; [exact Hle|].
      eapply Forall_impl; [exact Hy|]. simpl. intros z Hz. lia.
    + constructor; [apply IH; exact Hl|].
      apply (Permutation_Forall (Permutation_sym (insert_desc_perm x l))).
      constructor; [lia|exact Hy].
Qed.

Lemma order_created_at_desc_sorted (l : list StartupIdea.t) :
  sorted_desc (order_created_at_desc l).
Proof.
  unfold order_created_at_desc. induction l as [|x l IH]; simpl.
  - constructor.
  - apply insert_desc_sorted. exact IH.
Qed.

(** Changing statuses keeps a list ordered. *)
Lemma sorted_desc_statuses (l k : list StartupIdea.t) :
  Forall2 (fun a b => StartupIdea.created_at b = StartupIdea.created_at a) l k ->
  sorted_desc l -> sorted_desc k.
Proof.
  unfold sorted_desc. induction 1 as [|a b l k Hab Hlk IH]; intros Hs; [constructor|].
  inversion Hs as [|? ? Hl Ha]; subst. constructor; [apply IH; exact Hl|].
  clear IH Hs Hl. induction Hlk as [|a' b' l k Hab' Hlk IH']; [constructor|].
  inversion Ha; subst. constructor; [lia|]. apply IH'. assumption.
Qed.

(** *** [fetchIdeas] *)

Lemma fetchIdeas_fetched (s : St) :
  select_ideas_error (supabase env) = None ->
  exists out s1,
    map_all (reconcile env) (order_created_at_desc (startup_ideas (world s)))
            (queried s) = (Ok out, s1)
    /\ world (exec (fetchIdeas env) s) = world s1
    /\ ideas (view (exec (fetchIdeas env) s)) = out
    /\ loading (view (exec (fetchIdeas env) s)) = false.
Proof.
  intros Hok.
  destruct (map_all_reconcile (order_created_at_desc (startup_ideas (world s)))
              _ (fun x H => H) (queried s))
    as (out & s1 & Hrun & _).
  exists out, s1. split; [exact Hrun|].
  unfold fetchIdeas, select_ideas. unfold_monad. simpl. rewrite Hok. simpl.
  unfold queried, set_world in Hrun. simpl in Hrun. rewrite Hrun. simpl. auto.
Qed.

Lemma fetchIdeas_failed (s : St) (e : JsError) :
  select_ideas_error (supabase env) = Some e ->
  exec (fetchIdeas env) s
  = exec (enqueueSnackbar FailedToFetchIdeas error ;; setLoading false) (queried s).
Proof.
  intros Herr. unfold fetchIdeas, select_ideas, queried. unfold_monad. simpl.
  rewrite Herr. reflexivity.
Qed.


End Fetch.

Arguments JSDate.setDate_getDate_plus : simpl never.

Ltac run_submit s :=
  destruct s as [[tbl inv cs now tk] v p];
  unfold handleSubmit, insert_idea, new_Date in *;
  unfold_monad; unfold setPostLoading, setError, setFormData, setModalState, alert,
    modify_post, set_post, with_calls, with_investments, with_startup_ideas, tick in *;
  destruct tk as [|? [|? ?]]; simpl in *.

Section Submit.

Variable env : Env.

(** With a fixed offset from UTC, [setDate(getDate() + n)] adds [n] days of
    24 hours. *)
Lemma setDate_fixed_offset (off t n : Z) :
  (forall u b, LocalTZA env u b = off) ->
  JSDate.setDate_getDate_plus (LocalTZA env) (Some t) (Some n)
  = JSDate.TimeClip (t + n * JSDate.msPerDay).
Proof.
  intros Hoff. unfold JSDate.setDate_getDate_plus, JSDate.LocalTime, JSDate.UTC,
    JSDate.MakeDate, JSDate.Day, JSDate.TimeWithinDay.
  rewrite !Hoff. f_equal.
  pose proof (Z.div_mod (t + off) JSDate.msPerDay) as H.
  unfold JSDate.msPerDay in *. lia.
Qed.

Lemma TimeClip_Some (t u : Z) : JSDate.TimeClip t = Some u -> u = t.
Proof. unfold JSDate.TimeClip. destruct (_ <=? _); congruence. Qed.


(** The row a run of [handleSubmit] inserts when the end date is valid and
    the store accepts the row: the end date comes from the first reading of
    the clock, [created_at] from the second. *)
Lemma handleSubmit_inserted (s : St) (end_date : Z) :
  let f := formData (post s) in
  let t1 := time (tick (world s)) in
  let t2 := time (tick (tick (world s))) in
  let object :=
    {| StartupIdea.id := "";
       StartupIdea.wallet_address := walletAddress env;
       StartupIdea.title := fd_title f;
       StartupIdea.description := fd_description f;
       StartupIdea.image_url :=
         if decide (fd_imageUrl f = "") then None else Some (fd_imageUrl f);
       StartupIdea.money_needed := JS.parseFloat (fd_moneyNeeded f);
       StartupIdea.share_offered := fd_shareOffered f;
       StartupIdea.end_date := end_date;
       StartupIdea.status := open;
       StartupIdea.created_at := t2 |} in
  JSDate.setDate_getDate_plus (LocalTZA env) (Some t1) (JS.parseInt (fd_duration f))
  = Some end_date ->
  insert_idea_error (supabase env) object = None ->
  startup_ideas (world (exec (handleSubmit env) s))
  = startup_ideas (world s)
    ++ [with_id (assign_id (supabase env) (startup_ideas (world s))) object].
Proof.
  run_submit s.
  all: intros Hd Hi; rewrite Hd; simpl; rewrite Hi; reflexivity.
Qed.

End Submit.

Section Click.

Variable env : Env.

(** A click does nothing, or runs [handleInvest] on an idea of the list
    that the view shows as open. *)
Lemma clickInvest_cases (i : nat) (s : St) :
  clickInvest env i s = (Ok tt, s)
  \/ exists idea,
      ideas (view s) !! i = Some idea
      /\ StartupIdea.status idea = open
      /\ clickInvest env i s = handleInvest env idea s.
Proof.
  unfold clickInvest, render. unfold_monad.
  destruct (loading (view s)); [left; reflexivity|].
  destruct (Nat.eqb _ _); [left; reflexivity|].
  rewrite list_lookup_fmap.
  destruct (ideas (view s) !! i) as [idea|] eqn:Hi; simpl; [|left; reflexivity].
  unfold card_of; simpl.
  destruct (decide (StartupIdea.status idea = open)) as [Hst|Hst]; simpl;
    [|left; reflexivity].
  destruct (bool_decide _); [left; reflexivity|].
  right. exists idea. auto.
Qed.

End Click.

(** ** NaN *)

Lemma is_nan_eq (f : float) : is_nan f = true -> f = nan.
Proof.
  intros H. rewrite <- (SF2Prim_Prim2SF f). unfold Prim2SF. rewrite H. reflexivity.
Qed.

Lemma ltb_nan_r (x : float) : PrimFloat.ltb x nan = false.
Proof.
  rewrite FloatAxioms.ltb_spec. change (Prim2SF nan) with S754_nan.
  unfold SFltb, SFcompare. destruct (Prim2SF x); reflexivity.
Qed.

Lemma leb_nan_zero : PrimFloat.leb nan PrimFloat.zero = false.
Proof. reflexivity. Qed.

(** ** Events *)

Section Events.

Variable env : Env.




(** Ids identify rows. *)
Lemma same_id_same_row (l : list StartupIdea.t) (a r : StartupIdea.t) :
  NoDup (map StartupIdea.id l) ->
  In a l -> In r l -> StartupIdea.id a = StartupIdea.id r -> a = r.
Proof.
  induction l as [|x l IH]; intros Hnd Ha Hr Hid; [destruct Ha|].
  simpl in Hnd. inversion Hnd as [|? ? Hnotin Hnd']; subst.
  assert (Hmem : forall y, In y l -> StartupIdea.id y = StartupIdea.id x -> False).
  { intros y Hy Hyx. apply Hnotin. rewrite <- Hyx.
    apply list_elem_of_In. apply in_map. exact Hy. }
  destruct Ha as [->|Ha], Hr as [->|Hr].
  - reflexivity.
  - exfalso. apply (Hmem r Hr). symmetry. exact Hid.
  - exfalso. apply (Hmem a Ha). exact Hid.
  - apply IH; assumption.
Qed.




End Events.

(** ** The properties of the specification *)

Section Properties.

Variable env : Env.

(** C1, as amended: the Invest button is rendered only for an idea whose
    status in the view's list is open, so for an idea shown as funded or
    expired a click where the button would be runs nothing: no ledger call,
    no change of state.  [handleInvest] itself does not read the status. *)
Theorem closed_idea_offers_no_invest (i : nat) (idea : StartupIdea.t) (s : St) :
  ideas (view s) !! i = Some idea ->
  closed (StartupIdea.status idea) ->
  clickInvest env i s = (Ok tt, s).
Proof.
  intros Hi Hclosed.
  destruct (clickInvest_cases env i s) as [H|(idea' & Hi' & Hopen & _)]; [exact H|].
  rewrite Hi in Hi'. injection Hi' as <-.
  destruct Hclosed as [Hc|Hc]; rewrite Hopen in Hc; discriminate Hc.
Qed.


(** C3: when a step of the ledger part fails (parameters, construction,
    signing, submission or the wait for confirmation), [handleInvest]
    leaves both tables as they were: no investment row is inserted and no
    status is written; the only calls made are the ledger's. *)
Theorem ledger_failure_leaves_tables (idea : StartupIdea.t) (s : St) (e : JsError) :
  ledger_answer env idea (typed_amount (view s) idea) = Throw e ->
  let s' := exec (handleInvest env idea) s in
  investments (world s') = investments (world s)
  /\ startup_ideas (world s') = startup_ideas (world s)
  /\ Forall (fun c => is_ledger_call c = true) (new_calls s s').
Proof.
  intros H. run_invest s.
  all: destruct (PrimFloat.leb _ _); simpl; [rewrite drop_all; auto|].
  all: destruct (PrimFloat.ltb _ _); simpl; [rewrite drop_all; auto|].
  all: ledger_steps H; simpl; rewrite <- ?app_assoc, drop_app_length.
  all: repeat split; repeat (apply Forall_cons; split); try apply Forall_nil;
    reflexivity.
Qed.


(** C5: an amount that is [<= 0], or that exceeds the idea's full
    [money_needed], is turned down with a warning before anything else
    happens: the world, and with it the call log, is untouched. *)
Theorem invalid_amount_rejected (idea : StartupIdea.t) (s : St) :
  PrimFloat.leb (typed_amount (view s) idea) PrimFloat.zero = true
  \/ PrimFloat.ltb (StartupIdea.money_needed idea) (typed_amount (view s) idea) = true ->
  let s' := exec (handleInvest env idea) s in
  world s' = world s
  /\ no_ledger_call s s'
  /\ new_calls s s' = []
  /\ exists m, snackbars (view s') = snackbars (view s) ++ [(m, warning)].
Proof.
  intros H s'. subst s'. unfold exec, no_ledger_call, new_calls.
  destruct (PrimFloat.leb (typed_amount (view s) idea) PrimFloat.zero) eqn:Hle.
  - rewrite (handleInvest_nonpositive env idea s Hle). simpl.
    rewrite drop_all. repeat split; [constructor|eauto].
  - destruct H as [H|H]; [discriminate H|].
    rewrite (handleInvest_exceeds env idea s Hle H). simpl.
    rewrite drop_all. repeat split; [constructor|eauto].
Qed.


(** C7: when the query is answered without error, [fetchIdeas] sets the
    view's list to all rows of [startup_ideas], in descending order of
    [created_at], statuses reconciled; for every stored row that is open with
    an end date before the current time, the write of expired is issued and
    the row is in the list as expired; and it is expired in the store when the
    store accepts the writes. *)
Theorem fetchIdeas_orders_and_expires (s : St) :
  select_ideas_error (supabase env) = None ->
  let s' := exec (fetchIdeas env) s in
  (exists snapshot,
      Permutation snapshot (startup_ideas (world s))
      /\ Forall2 (fun a b =>
                    b = a \/ (StartupIdea.status a = open
                              /\ b = StartupIdea.with_status expired a))
                 snapshot (ideas (view s')))
  /\ sorted_desc (ideas (view s'))
  /\ forall r,
      In r (startup_ideas (world s)) ->
      StartupIdea.status r = open ->
      StartupIdea.end_date r < time (world s) ->
      In (UpdateStatus (StartupIdea.id r) expired) (new_calls s s')
      /\ In (StartupIdea.with_status expired r) (ideas (view s'))
      /\ ((forall i, update_status_error (supabase env) i expired = None) ->
          In (StartupIdea.with_status expired r) (startup_ideas (world s'))).
Proof.
  intros Hsel s'.
  destruct (fetchIdeas_fetched env s Hsel) as (out & s1 & Hrun & Hw & Hout & _).
  fold s' in Hw, Hout.
  destruct (map_all_reconcile env (startup_ideas (world s))
              (order_created_at_desc (startup_ideas (world s)))
              (fun x H => Permutation_in x (order_created_at_desc_perm _) H)
              (queried s))
    as (out' & s1' & Hrun' & _ & _ & _ & _ & Hrel & Htbl).
  rewrite Hrun in Hrun'. injection Hrun' as <- <-.
  destruct (map_all_reconcile_calls env _ _ _ _ Hrun) as (added & Hcalls & Hissued).
  unfold new_calls. rewrite Hout, Hw, Hcalls. split; [|split].
  - exists (order_created_at_desc (startup_ideas (world s))).
    split; [apply order_created_at_desc_perm|].
    eapply Forall2_impl; [exact Hrel|]. intros a b [H _]. exact H.
  - apply (sorted_desc_statuses (order_created_at_desc (startup_ideas (world s)))).
    + eapply Forall2_impl; [exact Hrel|].
      intros a b [[->|[_ ->]] _]; reflexivity.
    + apply order_created_at_desc_sorted.
  - intros r Hr Hopen Hend.
    assert (Hr' : In r (order_created_at_desc (startup_ideas (world s))))
      by (apply (Permutation_in r (Permutation_sym (order_created_at_desc_perm _)));
          exact Hr).
    split; [|split].
    + simpl. rewrite <- app_assoc, drop_app_length. right.
      apply Hissued; auto.
    + destruct (Forall2_In_left _ _ _ r Hrel Hr') as (b & Hb & _ & Hexp).
      rewrite <- (Hexp Hopen Hend). exact Hb.
    + intros Hupd.
      destruct (Forall2_In_left _ _ _ r Htbl Hr) as (r' & Hin' & Hfrom).
      assert (Hst : StartupIdea.status r' = expired).
      { apply (map_all_reconcile_written env _ Hupd _ _ _ Hrun r r'); auto.
        eapply expired_from_id. exact Hfrom. }
      destruct Hfrom as [->|[-> _]]; [|exact Hin'].
      rewrite Hopen in Hst. discriminate Hst.
Qed.

(** C8, as amended: the row [handleSubmit] inserts has as end date the
    first reading of the clock moved on by [d] days of the local calendar,
    [d] being what [parseInt] reads from the duration field, and as
    [created_at] a second, later reading.  Under a fixed offset from UTC
    the end date is the first reading plus [d] times 24 hours, so it is
    [created_at] plus [d] days when the two readings coincide. *)
Theorem end_date_counts_from_first_reading (s : St) (d end_date : Z) :
  let t1 := time (tick (world s)) in
  let t2 := time (tick (tick (world s))) in
  JS.parseInt (fd_duration (formData (post s))) = Some d ->
  JSDate.setDate_getDate_plus (LocalTZA env) (Some t1) (Some d) = Some end_date ->
  (forall r, insert_idea_error (supabase env) r = None) ->
  exists row,
    startup_ideas (world (exec (handleSubmit env) s))
    = startup_ideas (world s) ++ [row]
    /\ StartupIdea.status row = open
    /\ StartupIdea.end_date row = end_date
    /\ StartupIdea.created_at row = t2
    /\ t1 <= t2
    /\ forall off,
        (forall u b, LocalTZA env u b = off) ->
        end_date = t1 + d * JSDate.msPerDay
        /\ (t2 = t1 -> ends_after_days d row).
Proof.
  intros t1 t2 Hd Hend Hins.
  eexists. split.
  { apply (handleSubmit_inserted env s end_date); [|apply Hins].
    simpl. rewrite Hd. exact Hend. }
  simpl. repeat split; [apply tick_time_le| |].
  - rewrite (setDate_fixed_offset env off _ _ H) in Hend.
    apply TimeClip_Some in Hend. exact Hend.
  - intros Heq. unfold ends_after_days. simpl.
    rewrite (setDate_fixed_offset env off _ _ H) in Hend.
    apply TimeClip_Some in Hend. fold t1 t2. lia.
Qed.


(** C10: when the typed amount parses to NaN, neither check turns it down
    ([NaN <= 0] and [NaN > money_needed] are both false); the run goes on to
    the ledger, and once the parameters are fetched the payment object is
    built with the amount [Math.floor(NaN * 1_000_000)], which is NaN. *)
Theorem nan_amount_reaches_ledger (idea : StartupIdea.t) (s : St) :
  is_nan (typed_amount (view s) idea) = true ->
  let s' := exec (handleInvest env idea) s in
  amount_accepted idea (typed_amount (view s) idea) = true
  /\ (exists rest, new_calls s s' = GetTransactionParams :: rest)
  /\ forall sp,
      getTransactionParams (algorand env) = Ok sp ->
      exists p rest,
        new_calls s s' = GetTransactionParams :: MakePaymentTxn p :: rest
        /\ is_nan (Payment.amount p) = true.
Proof.
  intros Hnan. apply is_nan_eq in Hnan.
  assert (Hle : PrimFloat.leb (typed_amount (view s) idea) PrimFloat.zero = false)
    by (rewrite Hnan; apply leb_nan_zero).
  assert (Hlt : PrimFloat.ltb (StartupIdea.money_needed idea)
                              (typed_amount (view s) idea) = false)
    by (rewrite Hnan; apply ltb_nan_r).
  simpl. split; [unfold amount_accepted; rewrite Hle, Hlt; reflexivity|].
  run_invest s.
  all: rewrite Hle, Hlt; simpl.
  all: split.
  all: try (intros sp Hsp; rewrite Hsp; clear Hsp).
  all: split_answers; rewrite <- ?app_assoc, ?drop_app_length; simpl.
  all: try (eexists; reflexivity).
  all: do 2 eexists; (split; [reflexivity|]); simpl; rewrite Hnan; reflexivity.
Qed.

End Properties.

(** ** The sample sessions, run *)

(** C1, as stated, fails: [handleInvest] on an idea that is funded, in the
    store and in its argument, with a valid amount typed, goes to the ledger;
    and when the store holds the idea as funded while the list still shows it
    open, a click on Invest goes to the ledger too. *)
Lemma closed_idea_invest_reaches_ledger :
  closed (StartupIdea.status (Example.idea funded))
  /\ ~ no_ledger_call
        (Example.showing funded "10")
        (exec (handleInvest Example.env_ok (Example.idea funded))
              (Example.showing funded "10"))
  /\ ~ no_ledger_call
        Example.stale_funded
        (exec (clickInvest Example.env_ok 0) Example.stale_funded).
Proof.
  split; [left; reflexivity|]. split.
  - intros H. unfold no_ledger_call in H.
    assert (Hc : exists rest,
               new_calls (Example.showing funded "10")
                 (exec (handleInvest Example.env_ok (Example.idea funded))
                       (Example.showing funded "10"))
               = GetTransactionParams :: rest)
      by (eexists; vm_compute; reflexivity).
    destruct Hc as [rest Hc]. rewrite Hc in H. apply Forall_inv in H. discriminate H.
  - intros H. unfold no_ledger_call in H.
    assert (Hc : exists rest,
               new_calls Example.stale_funded
                 (exec (clickInvest Example.env_ok 0) Example.stale_funded)
               = GetTransactionParams :: rest)
      by (eexists; vm_compute; reflexivity).
    destruct Hc as [rest Hc]. rewrite Hc in H. apply Forall_inv in H. discriminate H.
Qed.

Lemma closed_idea_offers_no_invest_witness :
  ideas (view (Example.showing funded "10")) !! 0%nat = Some (Example.idea funded)
  /\ closed (StartupIdea.status (Example.idea funded))
  /\ clickInvest Example.env_ok 0 (Example.showing funded "10")
     = (Ok tt, Example.showing funded "10").
Proof.
  split; [reflexivity|]. split; [left; reflexivity|].
  apply (closed_idea_offers_no_invest Example.env_ok 0 (Example.idea funded)
           (Example.showing funded "10")).
  - reflexivity.
  - left. reflexivity.
Defined.



Lemma ledger_failure_leaves_tables_witness :
  ledger_answer (Example.env None (Some Example.timed_out)) (Example.idea open)
                (typed_amount (view (Example.showing open "400")) (Example.idea open))
  = Throw Example.timed_out
  /\ investments
       (world (exec (handleInvest (Example.env None (Some Example.timed_out))
                                  (Example.idea open))
                    (Example.showing open "400")))
     = [].
Proof.
  split; [vm_compute; reflexivity|].
  apply (ledger_failure_leaves_tables (Example.env None (Some Example.timed_out))
           (Example.idea open) (Example.showing open "400") Example.timed_out).
  vm_compute. reflexivity.
Defined.


Lemma invalid_amount_rejected_witness :
  PrimFloat.ltb (StartupIdea.money_needed (Example.idea open))
                (typed_amount (view (Example.showing open "2000")) (Example.idea open))
  = true
  /\ new_calls (Example.showing open "2000")
               (exec (handleInvest Example.env_ok (Example.idea open))
                     (Example.showing open "2000"))
     = [].
Proof.
  split; [vm_compute; reflexivity|].
  apply (invalid_amount_rejected Example.env_ok (Example.idea open)
           (Example.showing open "2000")).
  right. vm_compute. reflexivity.
Defined.


Lemma fetchIdeas_orders_and_expires_witness :
  In (UpdateStatus "idea-0" expired)
     (new_calls Example.overdue (exec (fetchIdeas Example.env_ok) Example.overdue))
  /\ In (Example.idea expired)
        (ideas (view (exec (fetchIdeas Example.env_ok) Example.overdue))).
Proof.
  destruct (proj2 (proj2 (fetchIdeas_orders_and_expires Example.env_ok Example.overdue
                            ltac:(reflexivity)))
              (Example.idea open))
    as (Hcall & Hlist & _).
  - left. reflexivity.
  - reflexivity.
  - simpl. lia.
  - split; [exact Hcall|exact Hlist].
Defined.

(** C8, as stated, fails: a millisecond passes between the reading of the
    clock the end date is computed from and the reading stored as
    [created_at], so the stored end date is one millisecond short of
    [created_at] plus 30 days. *)
Lemma end_date_is_not_created_at_plus_duration :
  JS.parseInt (fd_duration (formData (post Example.submitting))) = Some 30
  /\ match startup_ideas (world (exec (handleSubmit Example.env_ok) Example.submitting)) with
     | [row] =>
         StartupIdea.created_at row = 1001
         /\ StartupIdea.end_date row = 1000 + 30 * JSDate.msPerDay
         /\ ~ ends_after_days 30 row
     | _ => False
     end.
Proof.
  split; [vm_compute; reflexivity|].
  vm_compute. split; [reflexivity|]. split; [reflexivity|].
  intros H. discriminate H.
Qed.

Lemma end_date_counts_from_first_reading_witness :
  exists row,
    startup_ideas (world (exec (handleSubmit Example.env_ok) Example.submitting)) = [row]
    /\ StartupIdea.end_date row = 1000 + 30 * JSDate.msPerDay.
Proof.
  destruct (end_date_counts_from_first_reading Example.env_ok Example.submitting 30
              (1000 + 30 * JSDate.msPerDay)
              ltac:(vm_compute; reflexivity) ltac:(vm_compute; reflexivity)
              ltac:(intros r; reflexivity))
    as (row & Hrows & _ & Hend & _).
  exists row. split; [exact Hrows|exact Hend].
Defined.



Lemma nan_amount_reaches_ledger_witness :
  is_nan (typed_amount (view (Example.showing open "abc")) (Example.idea open)) = true
  /\ amount_accepted (Example.idea open)
       (typed_amount (view (Example.showing open "abc")) (Example.idea open))
     = true.
Proof.
  split; [vm_compute; reflexivity|].
  apply (nan_amount_reaches_ledger Example.env_ok (Example.idea open)
           (Example.showing open "abc")).
  vm_compute. reflexivity.
Defined.

(** ** Further properties of [handleInvest] *)


Lemma typed_amount_default (v : InvestorView) (idea : StartupIdea.t) :
  investAmount v !! StartupIdea.id idea = None
  \/ investAmount v !! StartupIdea.id idea = Some "" ->
  PrimFloat.leb (typed_amount v idea) PrimFloat.zero = true.
Proof.
  unfold typed_amount. intros [H|H]; rewrite H; vm_compute; reflexivity.
Qed.

Section Accepted.

Variable env : Env.
Variables (idea : StartupIdea.t) (s : St) (txid : string).

Let amount := typed_amount (view s) idea.
Let row :=
  investment_of env idea amount (sharePercentage_of idea amount) txid
                (time (tick (world s))).
Let s' := exec (handleInvest env idea) s.

Hypothesis accepted : amount_accepted idea amount = true.
Hypothesis confirmed : ledger_answer env idea amount = Ok txid.

Ltac run_confirmed :=
  pose proof (amount_accepted_checks idea amount accepted) as [Hle Hlt];
  pose proof confirmed as Hc; ledger_steps Hc;
  injection Hc as Hc; subst;
  subst s' row amount;
  destruct s as [[tbl inv cs now tk] v p];
  unfold new_calls, handleInvest, invest_body, insert_investment,
    select_amounts, update_status, new_Date, amounts_of in *;
  unfold_monad; unfold with_calls, with_investments, with_startup_ideas, tick in *;
  destruct tk; simpl in *;
  rewrite Hle, Hlt; simpl;
  repeat match goal with
         | H : ?x = _ |- context [?x] => rewrite H; simpl
         end.

(** X1: when the payment is confirmed but the insert of the investment row
    answers with an error, the payment has been submitted and nothing is
    recorded: both tables are as before, the insert was the last call, the
    error is shown, the typed amount stays, no refresh is started. *)
Theorem payment_without_record (e : JsError) :
  insert_investment_error (supabase env) row = Some e ->
  investments (world s') = investments (world s)
  /\ startup_ideas (world s') = startup_ideas (world s)
  /\ (exists p, In (SendRawTransaction p) (new_calls s s'))
  /\ last (new_calls s s') = Some (InsertInvestment row)
  /\ snackbars (view s')
     = snackbars (view s)
       ++ [(TransactionSent, info);
           (ErrorMessage (message_or e "Failed to process investment"), error)]
  /\ investAmount (view s') = investAmount (view s)
  /\ investingId (view s') = None
  /\ started_fetchIdeas (view s') = started_fetchIdeas (view s).
Proof.
  intros Hins. run_confirmed.
  all: rewrite <- ?app_assoc, ?drop_app_length; simpl.
  all: repeat split; eauto 10.
Qed.

(** X2: when the row is inserted but the read of the amounts answers with an
    error, the investment is recorded and the status is not touched: no
    funded write is issued, whatever the total would have been. *)
Theorem record_without_status (e : JsError) :
  insert_investment_error (supabase env) row = None ->
  select_amounts_error (supabase env) (StartupIdea.id idea) = Some e ->
  investments (world s') = investments (world s) ++ [row]
  /\ startup_ideas (world s') = startup_ideas (world s)
  /\ last (new_calls s s') = Some (SelectAmounts (StartupIdea.id idea))
  /\ last (snackbars (view s'))
     = Some (ErrorMessage (message_or e "Failed to process investment"), error)
  /\ investingId (view s') = None.
Proof.
  intros Hins Hread. run_confirmed.
  all: rewrite <- ?app_assoc, ?drop_app_length; simpl.
  all: repeat split; eauto.
  all: rewrite last_app; reflexivity.
Qed.

(** X4: a committed investment clears the amount field of the idea, so a
    second run of [handleInvest] on it right away is turned down with
    "Please enter a valid amount" and makes no call. *)
Theorem second_click_is_turned_down :
  insert_investment_error (supabase env) row = None ->
  select_amounts_error (supabase env) (StartupIdea.id idea) = None ->
  investAmount (view s') !! StartupIdea.id idea = Some ""
  /\ handleInvest env idea s' = enqueueSnackbar PleaseEnterAValidAmount warning s'.
Proof.
  intros Hins Hread.
  assert (Hcleared : investAmount (view s') !! StartupIdea.id idea = Some "").
  { run_confirmed.
    all: split_answers; apply lookup_insert_eq. }
  split; [exact Hcleared|].
  apply handleInvest_nonpositive. apply typed_amount_default. right. exact Hcleared.
Qed.

End Accepted.

Section EveryRun.

Variable env : Env.

(** X3: whatever the services answer, [handleInvest] does not leave an idea
    marked as being invested in: after a run that passed the two checks
    [investingId] is null, and a run that was turned down has not touched
    it. *)
Theorem investingId_is_released (idea : StartupIdea.t) (s : St) :
  investingId (view (exec (handleInvest env idea) s))
  = if amount_accepted idea (typed_amount (view s) idea) then None
    else investingId (view s).
Proof.
  unfold amount_accepted. run_invest s.
  all: split_answers; reflexivity.
Qed.


(** X6: [handleAmountChange] sets the amount read for that idea to what
    was typed (0 for the empty string) and leaves the amounts typed for other
    ideas, and the world, alone. *)
Theorem handleAmountChange_sets_one_amount (ideaId value : string)
    (idea : StartupIdea.t) (s : St) :
  let s' := exec (handleAmountChange ideaId value) s in
  (StartupIdea.id idea = ideaId ->
   typed_amount (view s') idea = JS.parseFloat (or_else (Some value) "0"))
  /\ (StartupIdea.id idea <> ideaId ->
      typed_amount (view s') idea = typed_amount (view s) idea)
  /\ world s' = world s.
Proof.
  simpl. unfold typed_amount, handleAmountChange. unfold_monad. simpl.
  repeat split.
  - intros ->. rewrite lookup_insert_eq. reflexivity.
  - intros Hne. rewrite lookup_insert_ne; [reflexivity|]. congruence.
Qed.

(** X7: an investment row appears only for a confirmed payment: a run of
    [handleInvest] either leaves [investments] as it is, or the amount passed
    the checks, the ledger confirmed a transaction, and exactly the row with
    that transaction's id is added. *)
Theorem row_only_for_confirmed_payment (idea : StartupIdea.t) (s : St) :
  let amount := typed_amount (view s) idea in
  let s' := exec (handleInvest env idea) s in
  investments (world s') = investments (world s)
  \/ (amount_accepted idea amount = true
      /\ exists txid,
          ledger_answer env idea amount = Ok txid
          /\ investments (world s')
             = investments (world s)
               ++ [investment_of env idea amount (sharePercentage_of idea amount)
                                 txid (time (tick (world s)))]).
Proof.
  unfold amount_accepted, ledger_answer. run_invest s.
  all: split_answers; try (left; reflexivity).
  all: right; split; [reflexivity|]; eexists; split; reflexivity.
Qed.

(** X8: a run of [handleInvest] submits at most one payment: there is no
    retry on any path. *)
Theorem at_most_one_submission (idea : StartupIdea.t) (s : St) :
  (length (List.filter is_submission
                       (new_calls s (exec (handleInvest env idea) s))) <= 1)%nat.
Proof.
  run_invest s.
  all: split_answers; rewrite <- ?app_assoc, ?drop_app_length, ?drop_all; simpl; lia.
Qed.


(** X10: while an idea is being invested in, its Invest button is disabled:
    a click on it runs nothing. *)
Theorem click_while_investing_does_nothing (i : nat) (idea : StartupIdea.t) (s : St) :
  ideas (view s) !! i = Some idea ->
  investingId (view s) = Some (StartupIdea.id idea) ->
  clickInvest env i s = (Ok tt, s).
Proof.
  intros Hi Hinv. unfold clickInvest, render. unfold_monad.
  destruct (loading (view s)); [reflexivity|].
  destruct (Nat.eqb _ _); [reflexivity|].
  rewrite list_lookup_fmap, Hi. simpl. unfold card_of. simpl.
  destruct (decide (StartupIdea.status idea = open)); simpl; [|reflexivity].
  rewrite bool_decide_eq_true_2; [reflexivity|exact Hinv].
Qed.

End EveryRun.

(** ** Further properties of [fetchIdeas] *)

Section Refreshing.

Variable env : Env.

Lemma reconcile_calls_shape (a : StartupIdea.t) (s : St) :
  calls (world (snd (reconcile env a s))) = calls (world s)
  \/ (StartupIdea.status a = open
      /\ calls (world (snd (reconcile env a s)))
         = calls (world s) ++ [UpdateStatus (StartupIdea.id a) expired]).
Proof.
  destruct s as [[tbl inv cs now tk] v p].
  unfold reconcile, update_status, new_Date. unfold_monad.
  unfold with_calls, with_startup_ideas, tick.
  destruct tk as [|dt tk]; simpl.
  all: match goal with
       | |- context [bool_decide ?P && (?x <? ?y)] =>
           destruct (bool_decide_reflect P) as [Hs|Hs];
           destruct (Z.ltb_spec x y) as [Ht|Ht]
       end; simpl.
  all: try destruct (update_status_error _ _ _); simpl; auto.
Qed.

Lemma map_all_reconcile_calls_shape (l : list StartupIdea.t) :
  forall s out s',
    map_all (reconcile env) l s = (Ok out, s') ->
    exists added,
      calls (world s') = calls (world s) ++ added
      /\ Forall (fun c => exists a, In a l /\ StartupIdea.status a = open
                                    /\ c = UpdateStatus (StartupIdea.id a) expired)
                added.
Proof.
  induction l as [|a0 l IH]; intros s out s' Hrun.
  - simpl in Hrun. injection Hrun as <- <-. exists []. rewrite app_nil_r.
    split; [reflexivity|constructor].
  - destruct (reconcile_spec env a0 s) as (b & s1 & Hrun1 & _).
    pose proof (reconcile_calls_shape a0 s) as Hc1. rewrite Hrun1 in Hc1. simpl in Hc1.
    destruct (map_all_reconcile env l l (fun x H => H) s1) as (out' & s2 & Hrun2 & _).
    simpl in Hrun. unfold mbind, M_bind, mret, M_ret in Hrun.
    rewrite Hrun1, Hrun2 in Hrun. injection Hrun as <- <-.
    destruct (IH s1 out' s2 Hrun2) as (added2 & Hc2 & HF).
    assert (HF' : Forall (fun c => exists a, In a (a0 :: l) /\ StartupIdea.status a = open
                                   /\ c = UpdateStatus (StartupIdea.id a) expired) added2).
    { eapply Forall_impl; [exact HF|]. intros c (a & Ha & Hst & ->).
      exists a. split; [right; exact Ha|auto]. }
    destruct Hc1 as [Hc1|[Hopen Hc1]].
    + exists added2. split; [rewrite Hc2, Hc1; reflexivity|exact HF'].
    + exists (UpdateStatus (StartupIdea.id a0) expired :: added2).
      split; [rewrite Hc2, Hc1, <- app_assoc; reflexivity|].
      constructor; [|exact HF']. exists a0. split; [left; reflexivity|auto].
Qed.

Lemma expired_as_listed_write (out tbl tbl' : list StartupIdea.t) (a : StartupIdea.t) :
  In (StartupIdea.with_status expired a) out ->
  Forall2 (expired_as_listed out)
          (set_status_where_id (StartupIdea.id a) expired tbl) tbl' ->
  Forall2 (expired_as_listed out) tbl tbl'.
Proof.
  intros Ha. unfold set_status_where_id. revert tbl'.
  induction tbl as [|r tbl IH]; intros tbl' H; simpl in H; [exact H|].
  inversion H as [|x y l1 l2 Hr Hrest]; subst.
  constructor; [|apply IH; exact Hrest].
  destruct (decide (StartupIdea.id r = StartupIdea.id a)) as [Hid|Hne]; [|exact Hr].
  right. split; [destruct Hr as [->|[-> _]]; reflexivity|].
  exists (StartupIdea.with_status expired a).
  split; [exact Ha|]. split; [simpl; congruence|reflexivity].
Qed.

(** The rows the map leaves in the store and the rows it returns: a stored
    row is changed only to expired, and then a returned row of its id is
    expired; a returned row is the row read, unless that was open and
    overdue at a reading of the clock. *)
Lemma map_all_reconcile_marked (l : list StartupIdea.t) :
  forall s out s',
    map_all (reconcile env) l s = (Ok out, s') ->
    Forall2 (expired_as_listed out) (startup_ideas (world s)) (startup_ideas (world s'))
    /\ Forall2 (fun a b =>
                  (b = a \/ b = StartupIdea.with_status expired a)
                  /\ (time (world s') <= StartupIdea.end_date a -> b = a)
                  /\ (StartupIdea.status a <> open -> b = a)) l out.
Proof.
  induction l as [|a0 l IH]; intros s out s' Hrun.
  - simpl in Hrun. injection Hrun as <- <-. split; [|constructor].
    induction (startup_ideas (world s)); constructor; [left; reflexivity|assumption].
  - destruct (reconcile_spec env a0 s) as (b & s1 & Hrun1 & _ & _ & _ & _ & Hcase).
    destruct (map_all_reconcile env l l (fun x H => H) s1)
      as (out' & s2 & Hrun2 & _ & _ & _ & Ht2 & _).
    simpl in Hrun. unfold mbind, M_bind, mret, M_ret in Hrun.
    rewrite Hrun1, Hrun2 in Hrun. injection Hrun as <- <-.
    destruct (IH s1 out' s2 Hrun2) as (Htbl & Hout).
    assert (Htbl' : Forall2 (expired_as_listed (b :: out'))
                            (startup_ideas (world s1)) (startup_ideas (world s2))).
    { eapply Forall2_impl; [exact Htbl|]. intros r r' [->|[-> (b0 & Hb0 & Hid & Hst)]].
      - left. reflexivity.
      - right. split; [reflexivity|]. exists b0. split; [right; exact Hb0|auto]. }
    split.
    + destruct Hcase as [(_ & Heq & _)|(Hopen & _ & -> & Heq)].
      * rewrite <- Heq. exact Htbl'.
      * destruct (update_status_error _ _ _); [rewrite <- Heq; exact Htbl'|].
        rewrite Heq in Htbl'.
        apply (expired_as_listed_write _ _ _ a0); [left; reflexivity|exact Htbl'].
    + constructor.
      * destruct Hcase as [(-> & _ & _)|(Hopen & Hend & -> & _)].
        -- repeat split; auto.
        -- split; [right; reflexivity|]. split; [intros Hdue; lia|].
           intros Hno. contradiction.
      * eapply Forall2_impl; [exact Hout|]. auto.
Qed.

(** X11: when the query answers with an error, [fetchIdeas] keeps the list
    it had, ends the loading state and shows "Failed to fetch ideas"; the
    query was its only call and the tables are untouched. *)
Theorem failed_fetch_keeps_the_list (s : St) (e : JsError) :
  select_ideas_error (supabase env) = Some e ->
  let s' := exec (fetchIdeas env) s in
  ideas (view s') = ideas (view s)
  /\ loading (view s') = false
  /\ snackbars (view s') = snackbars (view s) ++ [(FailedToFetchIdeas, error)]
  /\ new_calls s s' = [SelectIdeas]
  /\ startup_ideas (world s') = startup_ideas (world s)
  /\ investments (world s') = investments (world s).
Proof.
  intros Herr. simpl. rewrite (fetchIdeas_failed env s e Herr).
  unfold new_calls, queried. unfold_monad. simpl.
  rewrite drop_app_length. repeat split.
Qed.

(** X12: the only calls of [fetchIdeas] are the query and, after it, writes
    of expired for ideas that are open in the store: it never writes funded,
    never writes for an idea read as funded or expired, and never calls the
    ledger. *)
Theorem fetchIdeas_only_expires_open_ideas (s : St) :
  exists writes,
    new_calls s (exec (fetchIdeas env) s) = SelectIdeas :: writes
    /\ Forall (fun c => exists r, In r (startup_ideas (world s))
                                  /\ StartupIdea.status r = open
                                  /\ c = UpdateStatus (StartupIdea.id r) expired)
              writes.
Proof.
  destruct (select_ideas_error (supabase env)) as [e|] eqn:Hsel.
  - exists []. split; [|constructor].
    rewrite (fetchIdeas_failed env s e Hsel).
    unfold new_calls, queried. unfold_monad. simpl. apply drop_app_length.
  - destruct (fetchIdeas_fetched env s Hsel) as (out & s1 & Hrun & Hw & _).
    destruct (map_all_reconcile_calls_shape _ _ _ _ Hrun) as (added & Hcalls & HF).
    exists added. split.
    + unfold new_calls. rewrite Hw, Hcalls. simpl.
      rewrite <- app_assoc. apply drop_app_length.
    + eapply Forall_impl; [exact HF|]. intros c (a & Ha & Hst & ->).
      exists a. split; [|auto].
      apply (Permutation_in a (order_created_at_desc_perm _)). exact Ha.
Qed.

(** X13: [fetchIdeas] does not expire an idea before its end date: a stored
    row that is open and whose end date is not before the time at the end of
    the run is in the list as it is, and, ids being unique, still open in
    the store. *)
Theorem idea_not_due_stays_open (s : St) (r : StartupIdea.t) :
  select_ideas_error (supabase env) = None ->
  NoDup (map StartupIdea.id (startup_ideas (world s))) ->
  let s' := exec (fetchIdeas env) s in
  In r (startup_ideas (world s)) ->
  StartupIdea.status r = open ->
  time (world s') <= StartupIdea.end_date r ->
  In r (ideas (view s')) /\ In r (startup_ideas (world s')).
Proof.
  intros Hsel Hnd s' Hr Hopen Hdue.
  destruct (fetchIdeas_fetched env s Hsel) as (out & s1 & Hrun & Hw & Hout & _).
  fold s' in Hw, Hout.
  destruct (map_all_reconcile_marked _ _ _ _ Hrun) as (Htbl & Hrel).
  simpl in Htbl. rewrite Hout, Hw. rewrite Hw in Hdue.
  assert (Hsorted : forall a, In a (order_created_at_desc (startup_ideas (world s))) ->
                              In a (startup_ideas (world s)))
    by (intros a; apply Permutation_in, order_created_at_desc_perm).
  split.
  - assert (Hr' : In r (order_created_at_desc (startup_ideas (world s))))
      by (apply (Permutation_in r (Permutation_sym (order_created_at_desc_perm _)));
          exact Hr).
    destruct (Forall2_In_left _ _ _ r Hrel Hr') as (b & Hb & _ & Hkeep & _).
    rewrite <- (Hkeep Hdue). exact Hb.
  - destruct (Forall2_In_left _ _ _ r Htbl Hr) as (r' & Hin' & [->|[_ Hmark]]);
      [exact Hin'|].
    exfalso. destruct Hmark as (b & Hb & Hid & Hst).
    destruct (Forall2_In_right _ _ _ b Hrel Hb) as (a & Ha & Hab & Hkeep & _).
    assert (a = r) as ->.
    { apply (same_id_same_row (startup_ideas (world s))); auto.
      destruct Hab as [Hab|Hab]; subst b; exact Hid. }
    rewrite (Hkeep Hdue), Hopen in Hst. discriminate Hst.
Qed.




End Refreshing.

(** ** Further properties of [handleSubmit] *)

Section Posting.

Variable env : Env.

(** X15: when the end date is invalid (the duration does not parse to a
    number, or runs out of the range of dates), [handleSubmit] stops before
    the store is called: nothing is inserted, the clock has been read once,
    the form and the modal stay as they are and the error shown is "Invalid
    time value". *)
Theorem invalid_duration_posts_nothing (s : St) :
  JSDate.setDate_getDate_plus (LocalTZA env) (Some (time (tick (world s))))
                              (JS.parseInt (fd_duration (formData (post s))))
  = None ->
  let s' := exec (handleSubmit env) s in
  world s' = tick (world s)
  /\ new_calls s s' = []
  /\ formData (post s') = formData (post s)
  /\ openModal (post s') = openModal (post s)
  /\ alerts (post s') = alerts (post s)
  /\ post_error (post s') = Some "Invalid time value"
  /\ post_loading (post s') = false.
Proof.
  unfold new_calls. run_submit s.
  all: intros Hd; rewrite Hd; simpl; rewrite drop_all; repeat split.
Qed.

(** X16: when the end date is valid and the store accepts the row,
    [handleSubmit] makes one call, the insert; the row gets the id the store
    assigns, the poster's wallet address, status open and the parsed goal;
    the form is reset, the modal closed, the loading state ended and
    "Idea posted successfully!" alerted. *)
Theorem accepted_post_resets_the_form (s : St) (end_date : Z) :
  JSDate.setDate_getDate_plus (LocalTZA env) (Some (time (tick (world s))))
                              (JS.parseInt (fd_duration (formData (post s))))
  = Some end_date ->
  (forall r, insert_idea_error (supabase env) r = None) ->
  let s' := exec (handleSubmit env) s in
  (exists object row,
      new_calls s s' = [InsertIdea object]
      /\ startup_ideas (world s') = startup_ideas (world s) ++ [row]
      /\ row = with_id (assign_id (supabase env) (startup_ideas (world s))) object
      /\ StartupIdea.wallet_address row = walletAddress env
      /\ StartupIdea.status row = open
      /\ StartupIdea.money_needed row
         = JS.parseFloat (fd_moneyNeeded (formData (post s))))
  /\ formData (post s') = emptyForm
  /\ openModal (post s') = false
  /\ alerts (post s') = alerts (post s) ++ ["Idea posted successfully!"]
  /\ post_error (post s') = None
  /\ post_loading (post s') = false.
Proof.
  unfold new_calls. run_submit s.
  all: intros Hd Hi; rewrite Hd; simpl; rewrite Hi; simpl.
  all: rewrite drop_app_length.
  all: split; [do 2 eexists; repeat split|repeat split].
Qed.

(** X17: when the store answers the insert with an error, nothing is
    inserted, the form keeps what was typed, the modal stays open or closed
    as it was, and the error's message (or "Failed to post idea" when the
    error is no [Error] object) is shown. *)
Theorem rejected_post_keeps_the_form (s : St) (end_date : Z) (e : JsError) :
  JSDate.setDate_getDate_plus (LocalTZA env) (Some (time (tick (world s))))
                              (JS.parseInt (fd_duration (formData (post s))))
  = Some end_date ->
  (forall r, insert_idea_error (supabase env) r = Some e) ->
  let s' := exec (handleSubmit env) s in
  startup_ideas (world s') = startup_ideas (world s)
  /\ (exists object, new_calls s s' = [InsertIdea object])
  /\ formData (post s') = formData (post s)
  /\ openModal (post s') = openModal (post s)
  /\ alerts (post s') = alerts (post s)
  /\ post_error (post s') = Some (message_or e "Failed to post idea")
  /\ post_loading (post s') = false.
Proof.
  unfold new_calls. run_submit s.
  all: intros Hd Hi; rewrite Hd; simpl; rewrite Hi; simpl.
  all: rewrite drop_app_length.
  all: repeat split; eexists; reflexivity.
Qed.

End Posting.

(** ** Properties of [Home] *)

(** X18: through any run of events on [Home], the post modal is open only in
    the startuper role: [PostIdea] is mounted whenever [openPostModal] is
    true, and the investor view is never mounted with the post modal open. *)
Theorem post_modal_only_for_startuper (evs : list (option string * Home.Event)) :
  let h := Home.run evs Home.initial in
  (Home.openPostModal h = true -> Home.mounts_PostIdea h = true)
  /\ (Home.mounts_InvestorView h = true -> Home.openPostModal h = false).
Proof.
  assert (Hinv : forall evs h,
             (Home.openPostModal h = true -> Home.userType h = Some Home.startuper) ->
             Home.openPostModal (Home.run evs h) = true ->
             Home.userType (Home.run evs h) = Some Home.startuper).
  { clear evs. induction evs as [|[addr ev] evs IH]; intros h Hh; [exact Hh|].
    simpl. apply IH. clear IH.
    destruct ev as [b| |]; simpl.
    - unfold Home.offers. destruct (negb (Home.truthy addr)).
      + destruct b; simpl; exact Hh.
      + destruct (Home.userType h) as [u|] eqn:Hu; destruct b; simpl;
          first [ exact Hh
                | intros H; discriminate H
                | intros H; apply Hh in H; congruence
                | intros _; reflexivity ].
    - exact Hh.
    - intros H. discriminate H. }
  simpl. specialize (Hinv evs Home.initial (fun H => ltac:(discriminate H))).
  unfold Home.mounts_PostIdea, Home.mounts_InvestorView. split.
  - intros H. rewrite (Hinv H). reflexivity.
  - destruct (Home.openPostModal (Home.run evs Home.initial)); [|reflexivity].
    rewrite (Hinv eq_refl). intros H. discriminate H.
Qed.

(** ** The sample sessions with failing services, run *)

Lemma payment_without_record_witness :
  investments
    (world (exec (handleInvest (Faulty.env None (Some Faulty.unavailable) None None)
                               (Example.idea open))
                 (Example.showing open "400")))
  = investments (world (Example.showing open "400")).
Proof.
  apply (proj1 (payment_without_record
                  (Faulty.env None (Some Faulty.unavailable) None None)
                  (Example.idea open) (Example.showing open "400") "TX1"
                  ltac:(vm_compute; reflexivity) ltac:(vm_compute; reflexivity)
                  Faulty.unavailable ltac:(reflexivity))).
Defined.

Lemma record_without_status_witness :
  startup_ideas
    (world (exec (handleInvest (Faulty.env None None (Some Faulty.unavailable) None)
                               (Example.idea open))
                 (Example.showing open "1000")))
  = startup_ideas (world (Example.showing open "1000")).
Proof.
  apply (proj1 (proj2 (record_without_status
                  (Faulty.env None None (Some Faulty.unavailable) None)
                  (Example.idea open) (Example.showing open "1000") "TX1"
                  ltac:(vm_compute; reflexivity) ltac:(vm_compute; reflexivity)
                  Faulty.unavailable ltac:(reflexivity) ltac:(reflexivity)))).
Defined.

Lemma second_click_is_turned_down_witness :
  investAmount
    (view (exec (handleInvest Example.env_ok (Example.idea open))
                (Example.showing open "400")))
  !! StartupIdea.id (Example.idea open)
  = Some "".
Proof.
  apply (proj1 (second_click_is_turned_down Example.env_ok
                  (Example.idea open) (Example.showing open "400") "TX1"
                  ltac:(vm_compute; reflexivity) ltac:(vm_compute; reflexivity)
                  ltac:(reflexivity) ltac:(reflexivity))).
Defined.



Lemma click_while_investing_does_nothing_witness :
  clickInvest Example.env_ok 0 Faulty.investing = (Ok tt, Faulty.investing).
Proof.
  apply (click_while_investing_does_nothing Example.env_ok 0 (Example.idea open)
           Faulty.investing).
  - reflexivity.
  - reflexivity.
Defined.

Lemma failed_fetch_keeps_the_list_witness :
  ideas (view (exec (fetchIdeas (Faulty.env (Some Faulty.unavailable) None None None))
                    (Example.showing open "400")))
  = ideas (view (Example.showing open "400")).
Proof.
  apply (proj1 (failed_fetch_keeps_the_list
                  (Faulty.env (Some Faulty.unavailable) None None None)
                  (Example.showing open "400") Faulty.unavailable ltac:(reflexivity))).
Defined.

Lemma idea_not_due_stays_open_witness :
  In (Example.idea open)
     (startup_ideas (world (exec (fetchIdeas Example.env_ok) (Example.showing open "")))).
Proof.
  apply (proj2 (idea_not_due_stays_open Example.env_ok (Example.showing open "")
                  (Example.idea open) ltac:(reflexivity)
                  ltac:(simpl; apply NoDup_singleton)
                  ltac:(left; reflexivity) ltac:(reflexivity)
                  ltac:(apply Z.leb_le; vm_compute; reflexivity))).
Defined.


Lemma invalid_duration_posts_nothing_witness :
  JS.parseInt (fd_duration (formData (post Faulty.no_duration))) = None
  /\ post_error (post (exec (handleSubmit Example.env_ok) Faulty.no_duration))
     = Some "Invalid time value".
Proof.
  split; [vm_compute; reflexivity|].
  apply (invalid_duration_posts_nothing Example.env_ok Faulty.no_duration
           ltac:(vm_compute; reflexivity)).
Defined.

Lemma accepted_post_resets_the_form_witness :
  formData (post (exec (handleSubmit Example.env_ok) Example.submitting)) = emptyForm.
Proof.
  apply (proj1 (proj2 (accepted_post_resets_the_form Example.env_ok Example.submitting
                         (1000 + 30 * JSDate.msPerDay)
                         ltac:(vm_compute; reflexivity) ltac:(intros r; reflexivity)))).
Defined.

Lemma rejected_post_keeps_the_form_witness :
  formData (post (exec (handleSubmit (Faulty.env None None None (Some Faulty.unavailable)))
                       Example.submitting))
  = formData (post Example.submitting).
Proof.
  apply (proj1 (proj2 (proj2 (rejected_post_keeps_the_form
                         (Faulty.env None None None (Some Faulty.unavailable))
                         Example.submitting (1000 + 30 * JSDate.msPerDay)
                         Faulty.unavailable
                         ltac:(vm_compute; reflexivity) ltac:(intros r; reflexivity))))).
Defined.

(** ** An investment that reaches the goal, and the refresh it starts *)

(** X19: when a committed investment brings the total to the goal and the
    store accepts the funded write, the refresh that [handleInvest] started
    then lists every row of that idea as funded, so its card has no Invest
    button any more. *)
Theorem funded_idea_is_listed_as_funded (env : Env) (idea : StartupIdea.t) (s : St)
    (txid : string) :
  let amount := typed_amount (view s) idea in
  let row :=
    investment_of env idea amount (sharePercentage_of idea amount) txid
                  (time (tick (world s))) in
  let total :=
    totalInvested (amounts_of (StartupIdea.id idea) (investments (world s) ++ [row])) in
  let s1 := exec (handleInvest env idea) s in
  let s2 := exec (handle env RunStartedFetch) s1 in
  amount_accepted idea amount = true ->
  ledger_answer env idea amount = Ok txid ->
  insert_investment_error (supabase env) row = None ->
  select_amounts_error (supabase env) (StartupIdea.id idea) = None ->
  PrimFloat.leb (StartupIdea.money_needed idea) total = true ->
  update_status_error (supabase env) (StartupIdea.id idea) funded = None ->
  select_ideas_error (supabase env) = None ->
  started_fetchIdeas (view s2) = started_fetchIdeas (view s)
  /\ forall c,
      In c (ideas (view s2)) -> StartupIdea.id c = StartupIdea.id idea ->
      StartupIdea.status c = funded
      /\ invest_disabled (card_of (view s2) c) = None.
Proof.
  intros amount row total s1 s2 Hacc Hconf Hins Hread Hge Hupd Hsel.
  destruct (handleInvest_committed env idea s txid Hacc Hconf Hins Hread)
    as (_ & Htbl & _ & _ & _ & Hstarted).
  fold amount row total s1 in Htbl, Hstarted. rewrite Hge, Hupd in Htbl.
  assert (Hs2 : s2 = exec (fetchIdeas env) (snd (finish_fetchIdeas s1))).
  { subst s2. unfold handle, exec at 1, mbind, M_bind, get_state. simpl.
    destruct (Nat.eqb (started_fetchIdeas (view s1)) 0) eqn:E; [|reflexivity].
    rewrite Hstarted in E. discriminate E. }
  destruct (fetchIdeas_fetched env (snd (finish_fetchIdeas s1)) Hsel)
    as (out & s' & Hrun & _ & Hout & _).
  rewrite <- Hs2 in Hout.
  destruct (map_all_reconcile_marked env _ _ _ _ Hrun) as (_ & Hrel).
  assert (Hview : view s' = view (queried (snd (finish_fetchIdeas s1)))).
  { destruct (map_all_reconcile env
                (order_created_at_desc
                   (startup_ideas (world (snd (finish_fetchIdeas s1)))))
                _ (fun x H => H) (queried (snd (finish_fetchIdeas s1))))
      as (out' & s'' & Hrun' & Hv & _).
    rewrite Hrun in Hrun'. injection Hrun' as <- <-. exact Hv. }
  split.
  - rewrite Hs2. unfold fetchIdeas, select_ideas. unfold_monad. simpl.
    rewrite Hsel. simpl. unfold queried, set_world in Hrun. simpl in Hrun.
    rewrite Hrun. simpl. rewrite Hview. simpl. rewrite Hstarted. reflexivity.
  - intros c Hc Hid. rewrite Hout in Hc.
    destruct (Forall2_In_right _ _ _ c Hrel Hc) as (a & Ha & Hac & _ & Hkeep).
    apply (Permutation_in a (order_created_at_desc_perm _)) in Ha.
    simpl in Ha. rewrite Htbl in Ha. unfold set_status_where_id in Ha.
    apply in_map_iff in Ha as (r & Hr & _).
    assert (Hida : StartupIdea.id a = StartupIdea.id idea)
      by (destruct Hac as [Hac|Hac]; subst c; exact Hid).
    assert (Hfunded : StartupIdea.status a = funded).
    { subst a. destruct (decide (StartupIdea.id r = StartupIdea.id idea)) as [_|Hne];
        [reflexivity|]. contradiction. }
    assert (c = a) as -> by (apply Hkeep; rewrite Hfunded; discriminate).
    split; [exact Hfunded|].
    unfold card_of. simpl. rewrite Hfunded. reflexivity.
Qed.

Lemma funded_idea_is_listed_as_funded_witness :
  StartupIdea.status (Example.idea funded) = funded
  /\ invest_disabled
       (card_of
          (view (exec (handle Example.env_ok RunStartedFetch)
                      (exec (handleInvest Example.env_ok (Example.idea open))
                            (Example.showing open "1000"))))
          (Example.idea funded))
     = None.
Proof.
  apply (proj2 (funded_idea_is_listed_as_funded Example.env_ok (Example.idea open)
                  (Example.showing open "1000") "TX1"
                  ltac:(vm_compute; reflexivity) ltac:(vm_compute; reflexivity)
                  ltac:(reflexivity) ltac:(reflexivity)
                  ltac:(vm_compute; reflexivity) ltac:(reflexivity) ltac:(reflexivity))
           (Example.idea funded)).
  - vm_compute. left. reflexivity.
  - reflexivity.
Defined.
